(** * Polling-place simulation (simulate.py): a shallow embedding

    Numbers.  Python's [int] is [Z].  Python's [float] is idealised as
    the rationals [Q]: the arithmetic of the program ([+], [-], [/],
    comparisons, [max]) is exact rational arithmetic, and Python's
    [==] on floats is [Qeq].  The one transcendental function the
    program reaches, [math.log] inside [random.expovariate], is a
    member of the class [RandomSource] below.

    Effects.  The [random] module owns one hidden generator; it is a
    piece of global state that [Precinct.simulate] reseeds and then
    draws from.  It is threaded explicitly through the monad [M].
    Exceptions, a queue operation that waits forever and an exhausted
    loop budget are the three ways a call can fail to return a value;
    they are the non-[Ok] constructors of [result]. *)

From Stdlib Require Import ZArith QArith Bool List String.
From Stdlib Require Import Lia Lqa Permutation Sorted.
Import ListNotations.

Local Open Scope Z_scope.
Local Open Scope Q_scope.

(** ** Outcomes *)

Inductive exn : Type :=
| ZeroDivisionError
| IndexError
| TypeError.

Inductive result (A : Type) : Type :=
| Ok (a : A)          (* the call returns [a] *)
| Raise (e : exn)     (* the call raises [e]; nothing in the program catches it *)
| Blocked             (* a blocking queue operation waits forever *)
| OutOfFuel.          (* the iteration budget of a [while] loop ran out *)

Arguments Ok {A} a.
Arguments Raise {A} e.
Arguments Blocked {A}.
Arguments OutOfFuel {A}.

Definition bindR {A B : Type} (c : result A) (k : A -> result B) : result B :=
  match c with
  | Ok a => k a
  | Raise e => Raise e
  | Blocked => Blocked
  | OutOfFuel => OutOfFuel
  end.

Declare Scope result_scope.
Delimit Scope result_scope with result.
Notation "x <- c ;; k" := (bindR c (fun x => k))
  (at level 61, c at next level, right associativity) : result_scope.
Notation "' pat <- c ;; k" := (bindR c (fun x => match x with pat => k end))
  (at level 61, pat pattern, c at next level, right associativity) : result_scope.

(** Python's [x > y] on floats. *)
Definition Qgtb (x y : Q) : bool := negb (Qle_bool x y).

(** [max(a, b)]: the builtin keeps its first argument unless a later
    one is strictly greater. *)
Definition py_max (a b : Q) : Q := if Qgtb b a then b else a.

(** [l[i]] for an integer index, negative indices counting from the end. *)
Definition py_index {A : Type} (l : list A) (i : Z) : result A :=
  let n := Z.of_nat (List.length l) in
  let j := (if i <? 0 then i + n else i)%Z in
  if ((j <? 0) || (n <=? j))%Z then Raise IndexError
  else match nth_error l (Z.to_nat j) with
       | Some a => Ok a
       | None => Raise IndexError
       end.

(** ** The [random] module

    A seeded generator is the sequence of uniform variates it will
    hand out; [mt s n] is the [n]-th value of [random.random()] after
    [random.seed(s)].  [log] is [math.log]. *)

Class RandomSource : Type := {
  mt : Z -> nat -> Q;
  log : Q -> Q
}.

(** What the library documents about them: [random()] lies in [0, 1),
    and the logarithm of a number in (0, 1] is not positive. *)
Class RandomSourceLaws (R : RandomSource) : Prop := {
  mt_range : forall s n, 0 <= mt s n /\ mt s n < 1;
  log_nonpos : forall x, 0 < x -> x <= 1 -> log x <= 0
}.

Module Random.

(** State of the hidden generator: the sequence it was seeded with
    and the number of variates drawn from it so far. *)
Record state : Type := { tape : nat -> Q; pos : nat }.

Definition M (A : Type) : Type := state -> result (A * state).

Definition ret {A : Type} (a : A) : M A := fun g => Ok (a, g).

Definition bind {A B : Type} (c : M A) (k : A -> M B) : M B :=
  fun g =>
    match c g with
    | Ok (a, g') => k a g'
    | Raise e => Raise e
    | Blocked => Blocked
    | OutOfFuel => OutOfFuel
    end.

Definition raise {A : Type} (e : exn) : M A := fun _ => Raise e.

(** A computation that does not touch the generator. *)
Definition lift {A : Type} (r : result A) : M A :=
  fun g => bindR r (fun a => Ok (a, g)).

Section Draws.
Context {R : RandomSource}.

(** [random.seed(s)] *)
Definition seed (s : Z) : M unit :=
  fun _ => Ok (tt, {| tape := mt s; pos := 0 |}).

(** [random.random()] *)
Definition random : M Q :=
  fun g => Ok (tape g (pos g), {| tape := tape g; pos := S (pos g) |}).

(** [random.expovariate(lambd)], which the library defines as
    [-log(1.0 - random()) / lambd]: the variate is drawn before the
    division is attempted. *)
Definition expovariate (lambd : Q) : M Q :=
  bind random (fun u =>
    if Qeq_bool lambd 0 then raise ZeroDivisionError
    else ret (- log (1 - u) / lambd)).
End Draws.

End Random.

Declare Scope rand_scope.
Delimit Scope rand_scope with rand.
Notation "x <- c ;; k" := (Random.bind c (fun x => k))
  (at level 61, c at next level, right associativity) : rand_scope.
Notation "' pat <- c ;; k" := (Random.bind c (fun x => match x with pat => k end))
  (at level 61, pat pattern, c at next level, right associativity) : rand_scope.

(** ** [queue.PriorityQueue]

    The heap is represented by its contents in ascending order, so that
    [heappop] takes the head.  [maxsize <= 0] means unbounded.  [put]
    and [get] are called with their default [block=True]: on a full
    (respectively empty) queue they wait for another thread, and the
    program has none. *)

Module PriorityQueue.

Record t : Type := { maxsize : Z; queue : list Q }.

Definition init (maxsize : Z) : t := {| maxsize := maxsize; queue := [] |}.

Definition qsize (self : t) : Z := Z.of_nat (List.length (queue self)).

Fixpoint heappush (h : list Q) (item : Q) : list Q :=
  match h with
  | [] => [item]
  | x :: h' => if Qle_bool item x then item :: x :: h' else x :: heappush h' item
  end.

(** [0 < self.maxsize <= self._qsize()] *)
Definition full (self : t) : bool :=
  ((0 <? maxsize self) && (maxsize self <=? qsize self))%Z.

Definition put (self : t) (item : Q) : result t :=
  if ((0 <? maxsize self) && (maxsize self <=? qsize self))%Z then Blocked
  else Ok {| maxsize := maxsize self; queue := heappush (queue self) item |}.

Definition get (self : t) : result (Q * t) :=
  match queue self with
  | [] => Blocked
  | x :: h' => Ok (x, {| maxsize := maxsize self; queue := h' |})
  end.

End PriorityQueue.

(** ** class Voter *)

Module Voter.

Record t : Type := {
  arrival_time : Q;
  voting_duration : Q;
  start_time : option Q;     (* [None] until a booth is assigned *)
  end_time : option Q
}.

Definition init (arrival_time voting_duration : Q) : t :=
  {| arrival_time := arrival_time;
     voting_duration := voting_duration;
     start_time := None;
     end_time := None |}.

Definition update_startend_times (self : t) (start_time : Q) : t :=
  {| arrival_time := arrival_time self;
     voting_duration := voting_duration self;
     start_time := Some start_time;
     end_time := Some (start_time + voting_duration self) |}.

End Voter.

(** ** class VotingBooths *)

Module VotingBooths.

Record t : Type := { num_booths : Z; booths : PriorityQueue.t }.

Definition init (num_booths : Z) : t :=
  {| num_booths := num_booths; booths := PriorityQueue.init num_booths |}.

Definition put (self : t) (priority : Q) : result t :=
  (q <- PriorityQueue.put (booths self) priority ;;
   Ok {| num_booths := num_booths self; booths := q |})%result.

Definition get (self : t) : result (Q * t) :=
  ('(x, q) <- PriorityQueue.get (booths self) ;;
   Ok (x, {| num_booths := num_booths self; booths := q |}))%result.

Definition full (self : t) : bool := PriorityQueue.full (booths self).

(** Number of departure times held. *)
Definition size (self : t) : nat := List.length (PriorityQueue.queue (booths self)).

End VotingBooths.


(** ** class Precinct *)

Module Precinct.

Record t : Type := {
  name : string;
  minutes_open : Z;
  max_num_voters : Z;
  num_booths : Z;
  arrival_rate : Q;
  voting_duration_rate : Q
}.

(** The constructor stores its arguments; it inspects none of them. *)
Definition init (name : string) (hours_open max_num_voters num_booths : Z)
    (arrival_rate voting_duration_rate : Q) : t :=
  {| name := name;
     minutes_open := hours_open * 60;
     max_num_voters := max_num_voters;
     num_booths := num_booths;
     arrival_rate := arrival_rate;
     voting_duration_rate := voting_duration_rate |}.

Section Simulate.
Context {R : RandomSource}.

(** The draws of one pass through the body of the [while] loop: the
    voting duration and the gap of the next candidate voter. *)
Definition draw_candidate (self : t)
    (percent_straight_ticket straight_ticket_duration : Q) : Random.M (Q * Q) :=
  (u <- Random.random ;;
   voting_duration <-
     (if Qle_bool u percent_straight_ticket
      then Random.ret straight_ticket_duration
      else Random.expovariate (voting_duration_rate self)) ;;
   gap <- Random.expovariate (arrival_rate self) ;;
   Random.ret (voting_duration, gap))%rand.

(** The [while] loop.  [fuel] bounds the number of times the guard is
    evaluated. *)
Fixpoint arrivals (fuel : nat) (self : t)
    (percent_straight_ticket straight_ticket_duration : Q)
    (voters : list Voter.t) (cur_time : Q) : Random.M (list Voter.t) :=
  match fuel with
  | O => fun _ => OutOfFuel
  | S fuel' =>
    if (Z.of_nat (List.length voters) + 1 <=? max_num_voters self)%Z then
      ('(voting_duration, gap) <-
          draw_candidate self percent_straight_ticket straight_ticket_duration ;;
       let cur_time := cur_time + gap in
       if Qgtb cur_time (inject_Z (minutes_open self)) then Random.ret voters
       else arrivals fuel' self percent_straight_ticket straight_ticket_duration
              (voters ++ [Voter.init cur_time voting_duration]) cur_time)%rand
    else Random.ret voters
  end.

(** [booth.put(voter.end_time)] *)
Definition put_end_time (booth : VotingBooths.t) (voter : Voter.t)
  : result VotingBooths.t :=
  match Voter.end_time voter with
  | Some e => VotingBooths.put booth e
  | None => Raise TypeError
  end.

(** The body of the [for] loop: one voter is given a booth. *)
Definition assign (booth : VotingBooths.t) (voter : Voter.t)
  : result (Voter.t * VotingBooths.t) :=
  (if negb (VotingBooths.full booth) then
     let voter := Voter.update_startend_times voter (Voter.arrival_time voter) in
     booth <- put_end_time booth voter ;;
     Ok (voter, booth)
   else
     '(free, booth) <- VotingBooths.get booth ;;
     let voter :=
       Voter.update_startend_times voter (py_max (Voter.arrival_time voter) free) in
     booth <- put_end_time booth voter ;;
     Ok (voter, booth))%result.

(** The [for] loop over [voters]; the voters are updated in place, so
    the list keeps its order. *)
Fixpoint assign_all (booth : VotingBooths.t) (voters : list Voter.t)
  : result (list Voter.t * VotingBooths.t) :=
  match voters with
  | [] => Ok ([], booth)
  | voter :: rest =>
    ('(voter', booth') <- assign booth voter ;;
     '(rest', booth'') <- assign_all booth' rest ;;
     Ok (voter' :: rest', booth''))%result
  end.

(** The guard [len(voters) + 1 <= max_num_voters] fails once
    [max_num_voters] voters are recorded, so [max_num_voters + 1]
    evaluations of it are enough. *)
Definition fuel_for (self : t) : nat := S (Z.to_nat (max_num_voters self)).

Definition simulate (self : t)
    (percent_straight_ticket straight_ticket_duration : Q) (seed : Z)
  : Random.M (list Voter.t) :=
  (_ <- Random.seed seed ;;
   voters <- arrivals (fuel_for self) self
               percent_straight_ticket straight_ticket_duration [] 0 ;;
   '(voters, _) <- Random.lift (assign_all (VotingBooths.init (num_booths self)) voters) ;;
   Random.ret voters)%rand.

End Simulate.

End Precinct.


(** ** The precinct dictionary

    [find_avg_wait_time] and [find_percent_split_ticket] receive a
    precinct as the dictionary that [util.load_precincts] builds; the
    record has one field per key. *)

Module PrecinctDict.

Record t : Type := {
  name : string;
  hours_open : Z;
  num_voters : Z;
  num_booths : Z;
  arrival_rate : Q;
  voting_duration_rate : Q;
  percent_straight_ticket : Q;
  straight_ticket_duration : Q
}.

End PrecinctDict.

(** ** find_avg_wait_time *)

(** [list.sort()] on floats: a stable sort into ascending order. *)
Fixpoint sort_insert (x : Q) (l : list Q) : list Q :=
  match l with
  | [] => [x]
  | y :: l' => if Qle_bool x y then x :: y :: l' else y :: sort_insert x l'
  end.

Definition py_sort (l : list Q) : list Q := fold_right sort_insert [] l.

(** [sum(l)]: a left fold of [+] from the integer [0]. *)
Definition py_sum (l : list Q) : Q := fold_left Qplus l 0.

(** [voter.start_time - voter.arrival_time] *)
Definition wait_time (voter : Voter.t) : result Q :=
  match Voter.start_time voter with
  | Some s => Ok (s - Voter.arrival_time voter)
  | None => Raise TypeError
  end.

(** The inner [for] loop, which builds [wait_times]. *)
Fixpoint wait_times_of (voters : list Voter.t) (wait_times : list Q) : result (list Q) :=
  match voters with
  | [] => Ok wait_times
  | voter :: rest =>
    (w <- wait_time voter ;;
     wait_times_of rest (wait_times ++ [w]))%result
  end.

(** [sum(wait_times) / len(wait_times)] *)
Definition average (wait_times : list Q) : result Q :=
  match wait_times with
  | [] => Raise ZeroDivisionError
  | _ => Ok (py_sum wait_times / inject_Z (Z.of_nat (List.length wait_times)))
  end.

(** The last two statements: sort the averages and take the entry at
    index [ntrials // 2]. *)
Definition sorted_middle (avg_wait_times : list Q) (ntrials : Z) : result Q :=
  py_index (py_sort avg_wait_times) (ntrials / 2)%Z.

Section Estimator.
Context {R : RandomSource}.

(** The outer loop, [for _ in range(ntrials)], with [n] passes left. *)
Fixpoint trials (n : nat) (p : Precinct.t)
    (percent_straight_ticket straight_ticket_duration : Q)
    (seed : Z) (avg_wait_times : list Q) : Random.M (list Q) :=
  match n with
  | O => Random.ret avg_wait_times
  | S n' =>
    (voters <- Precinct.simulate p percent_straight_ticket
                 straight_ticket_duration seed ;;
     wait_times <- Random.lift (wait_times_of voters []) ;;
     avg <- Random.lift (average wait_times) ;;
     trials n' p percent_straight_ticket straight_ticket_duration
       (seed + 1)%Z (avg_wait_times ++ [avg]))%rand
  end.

Definition precinct_of (precinct : PrecinctDict.t) : Precinct.t :=
  Precinct.init (PrecinctDict.name precinct) (PrecinctDict.hours_open precinct)
    (PrecinctDict.num_voters precinct) (PrecinctDict.num_booths precinct)
    (PrecinctDict.arrival_rate precinct) (PrecinctDict.voting_duration_rate precinct).

Definition find_avg_wait_time (precinct : PrecinctDict.t)
    (percent_straight_ticket : Q) (ntrials initial_seed : Z) : Random.M Q :=
  let p := precinct_of precinct in
  (avg_wait_times <-
     trials (Z.to_nat ntrials) p percent_straight_ticket
       (PrecinctDict.straight_ticket_duration precinct) initial_seed [] ;;
   Random.lift (sorted_middle avg_wait_times ntrials))%rand.

(** ** find_percent_split_ticket *)

(** [range(11)[::-1]] and its enumeration. *)
Definition range11 : list Z := map Z.of_nat (seq 0 11).

Definition sweep : list (Z * Z) := combine range11 (rev range11).

(** The [for] loop over the enumeration.  A Python function whose
    loop ends without reaching a [return] returns [None]: that is the
    outer [None] here. *)
Fixpoint search (steps : list (Z * Z)) (precinct : PrecinctDict.t)
    (target_wait_time : Q) (ntrials seed : Z) : Random.M (option (Q * option Q)) :=
  match steps with
  | [] => Random.ret None
  | (split, straight) :: rest =>
    (avg_wait <- find_avg_wait_time precinct (inject_Z straight / 10) ntrials seed ;;
     if Qgtb avg_wait target_wait_time
     then Random.ret (Some (inject_Z split / 10, Some avg_wait))
     else if (split =? 10)%Z then Random.ret (Some (1, None))
     else search rest precinct target_wait_time ntrials seed)%rand
  end.

Definition find_percent_split_ticket (precinct : PrecinctDict.t)
    (target_wait_time : Q) (ntrials seed : Z) : Random.M (option (Q * option Q)) :=
  search sweep precinct target_wait_time ntrials seed.

End Estimator.


(** ** Running a computation *)

(** Any generator state will do as a starting point for a call that
    reseeds; this one has drawn nothing. *)
Definition fresh : Random.state := {| Random.tape := fun _ => 0; Random.pos := 0 |}.

(** Value returned by a computation started in state [g]. *)
Definition value_from {A : Type} (c : Random.M A) (g : Random.state) : result A :=
  (x <- c g ;; Ok (fst x))%result.

(** Number of variates the computation draws when started in state [g]. *)
Definition draws_from {A : Type} (c : Random.M A) (g : Random.state) : result nat :=
  (x <- c g ;; Ok (Random.pos (snd x) - Random.pos g)%nat)%result.

(** ** Two concrete random sources for the examples

    Both stay within the documented ranges.  The first cycles through
    the tenths; the second hands out [0.0], the least value that
    [random.random()] can return, as its first variate. *)

Definition tenths : RandomSource :=
  {| mt := fun s n => inject_Z ((Z.abs s + 7 * Z.of_nat n) mod 10) / 10;
     log := fun x => x - 1 |}.

Definition zero_first : RandomSource :=
  {| mt := fun s n => match n with O => 0 | S _ => 1 # 2 end;
     log := fun x => x - 1 |}.

Definition demo_precinct : Precinct.t :=
  Precinct.init "demo" 1 10 1 (1 # 10) (2 # 10).

Definition demo_dict : PrecinctDict.t :=
  {| PrecinctDict.name := "demo";
     PrecinctDict.hours_open := 1;
     PrecinctDict.num_voters := 10;
     PrecinctDict.num_booths := 1;
     PrecinctDict.arrival_rate := 1 # 10;
     PrecinctDict.voting_duration_rate := 2 # 10;
     PrecinctDict.percent_straight_ticket := 1 # 2;
     PrecinctDict.straight_ticket_duration := 2 |}.


(** ** Properties named by the specification *)

(** Causality of one served voter: both times are set, the voter does
    not start before arriving, and leaves one voting duration later. *)
Definition causal (v : Voter.t) : Prop :=
  exists s e,
    Voter.start_time v = Some s /\ Voter.end_time v = Some e /\
    Voter.arrival_time v <= s /\ e == s + Voter.voting_duration v.

(** A voter who did not wait at all. *)
Definition served_on_arrival (v : Voter.t) : Prop :=
  Voter.start_time v = Some (Voter.arrival_time v) /\
  exists w, wait_time v = Ok w /\ w == 0.

(** The generator right after [random.seed(s)]. *)
Definition seeded {R : RandomSource} (s : Z) : Random.state :=
  {| Random.tape := mt s; Random.pos := 0 |}.

(** A pool is well formed when its queue was built with its own
    capacity and, if bounded, holds no more than that. *)
Definition pool_ok (b : VotingBooths.t) : Prop :=
  VotingBooths.num_booths b = PriorityQueue.maxsize (VotingBooths.booths b) /\
  ((VotingBooths.num_booths b <= 0)%Z \/
   (Z.of_nat (VotingBooths.size b) <= VotingBooths.num_booths b)%Z).

(** Size of a pool of capacity [n] that held [size] entries, after [k]
    more voters. *)
Definition size_after (n : Z) (size k : nat) : Z :=
  if (0 <? n)%Z then Z.min n (Z.of_nat size + Z.of_nat k)
  else (Z.of_nat size + Z.of_nat k)%Z.

(** The voter as served by a booth that is free on arrival. *)
Definition start_on_arrival (v : Voter.t) : Voter.t :=
  Voter.update_startend_times v (Voter.arrival_time v).

Definition arrival_times (voters : list Voter.t) : list Q :=
  map Voter.arrival_time voters.

(** What the arrival loop maintains about the recorded voters and the
    clock: arrivals in non-decreasing order, none negative, none after
    the clock, the clock itself not negative, nobody recorded after
    closing time, and no more voters than the limit allows. *)
Definition arrivals_inv (self : Precinct.t) (voters : list Voter.t) (cur : Q) : Prop :=
  StronglySorted Qle (arrival_times voters) /\
  Forall (fun a => 0 <= a /\ a <= cur /\ a <= inject_Z (Precinct.minutes_open self))
    (arrival_times voters) /\
  0 <= cur /\
  (Z.of_nat (List.length voters) <= Precinct.max_num_voters self)%Z.

(** The wait of a served voter, and the mean wait of a day. *)
Definition waited (v : Voter.t) : Q :=
  match Voter.start_time v with
  | Some s => s - Voter.arrival_time v
  | None => 0
  end.

Definition mean_wait (voters : list Voter.t) : Q :=
  py_sum (map waited voters) / inject_Z (Z.of_nat (List.length voters)).

(** The median average wait at [straight] tenths of straight-ticket
    voters, as a value. *)
Definition avg_wait_at {R : RandomSource} (precinct : PrecinctDict.t)
    (straight ntrials seed : Z) : result Q :=
  value_from (find_avg_wait_time precinct (inject_Z straight / 10) ntrials seed) fresh.

(** A precinct that lets no voter in, and one whose voters come too
    rarely to arrive within the hour. *)
Definition no_voters_dict : PrecinctDict.t :=
  {| PrecinctDict.name := "nobody";
     PrecinctDict.hours_open := 1;
     PrecinctDict.num_voters := 0;
     PrecinctDict.num_booths := 1;
     PrecinctDict.arrival_rate := 1 # 10;
     PrecinctDict.voting_duration_rate := 2 # 10;
     PrecinctDict.percent_straight_ticket := 1 # 2;
     PrecinctDict.straight_ticket_duration := 2 |}.

Definition rare_voters_dict : PrecinctDict.t :=
  {| PrecinctDict.name := "rare";
     PrecinctDict.hours_open := 1;
     PrecinctDict.num_voters := 10;
     PrecinctDict.num_booths := 1;
     PrecinctDict.arrival_rate := 1 # 1000;
     PrecinctDict.voting_duration_rate := 2 # 10;
     PrecinctDict.percent_straight_ticket := 1 # 2;
     PrecinctDict.straight_ticket_duration := 2 |}.

(** The voters of three days of the example precinct, seeds 0, 1, 2. *)
Definition demo_runs : list (list Voter.t) :=
  Eval vm_compute in
    map (fun s =>
           match value_from (Precinct.simulate (R := tenths) (precinct_of demo_dict)
                               (1 # 2) 2 s) fresh with
           | Ok voters => voters
           | _ => []
           end)
        [0%Z; 1%Z; 2%Z].

(** ** Further notions for the assignment phase *)

(** The voters of [earlier] who are still in a booth at time [t]: their
    [end_time] is set and lies strictly after [t]. *)
Definition still_voting (t : Q) (u : Voter.t) : bool :=
  match Voter.end_time u with
  | Some e => Qgtb e t
  | None => false
  end.

Definition in_service (t : Q) (earlier : list Voter.t) : nat :=
  List.length (filter (still_voting t) earlier).

(** The departure times of voters whose [end_time] is set. *)
Definition end_times (voters : list Voter.t) : list Q :=
  flat_map (fun u => match Voter.end_time u with
                     | Some e => [e]
                     | None => []
                     end) voters.

(** A pool written out from its three components. *)
Definition pool (num_booths maxsize : Z) (queue : list Q) : VotingBooths.t :=
  {| VotingBooths.num_booths := num_booths;
     VotingBooths.booths :=
       {| PriorityQueue.maxsize := maxsize; PriorityQueue.queue := queue |} |}.

(** What the assignment loop maintains about a pool of [N >= 1] booths
    after serving [hist]: the queue is in ascending order and within
    capacity; together with the departure times [gone] that were taken
    out of it, it holds exactly the departure times of [hist]; nothing
    was taken out before the pool filled up; and every departure time
    taken out is at most every one still held. *)
Definition pool_inv (N : Z) (hist : list Voter.t) (b : VotingBooths.t) : Prop :=
  VotingBooths.num_booths b = N /\
  PriorityQueue.maxsize (VotingBooths.booths b) = N /\
  (Z.of_nat (VotingBooths.size b) <= N)%Z /\
  StronglySorted Qle (PriorityQueue.queue (VotingBooths.booths b)) /\
  exists gone,
    Permutation (PriorityQueue.queue (VotingBooths.booths b) ++ gone) (end_times hist) /\
    ((Z.of_nat (VotingBooths.size b) < N)%Z -> gone = []) /\
    Forall (fun x => Forall (fun y => x <= y)
                       (PriorityQueue.queue (VotingBooths.booths b))) gone.

(** What the loop maintains for first-come-first-served order: [t] is
    the latest start so far and [a] the latest arrival.  While a booth
    is free [t] is at most [a]; and [t] is at most [a] or at most any
    departure time held. *)
Definition fifo_inv (b : VotingBooths.t) (t a : Q) : Prop :=
  (VotingBooths.full b = false -> t <= a) /\
  Forall (fun x => t <= a \/ t <= x) (PriorityQueue.queue (VotingBooths.booths b)).

(** With one booth, each voter starts at the later of the arrival and
    the departure [e] of the voter before. *)
Fixpoint lindley (e : Q) (served : list Voter.t) : Prop :=
  match served with
  | [] => True
  | v :: rest =>
    Voter.start_time v = Some (py_max (Voter.arrival_time v) e) /\
    exists e', Voter.end_time v = Some e' /\ lindley e' rest
  end.

(** ** The command [cmd]

    [cmd] is the function behind the command line.  Its first
    statement, [util.load_precincts(precincts_file)], belongs to a
    module that is not part of the sources at hand; the pair it
    returns, the precinct dictionaries and the seed, is taken as the
    input here.  What [cmd] prints is kept as the list of lines, and
    the way it ends as a [cmd_status].  [cmd] meets two exceptions
    that the simulation itself never raises. *)

Inductive cmd_exn : Type :=
| Builtin (e : exn)
| AttributeError
| SystemExit (status : Z).

Inductive cmd_status : Type :=
| Completed
| Died (e : cmd_exn)
| NoReturn.

Definition status_of {A : Type} (r : result A) : cmd_status :=
  match r with
  | Ok _ => Completed
  | Raise e => Died (Builtin e)
  | Blocked => NoReturn
  | OutOfFuel => NoReturn
  end.

(** The dictionary [voters], precinct name to voter list.  A Python
    dictionary keeps its keys in the order of their first insertion,
    and an assignment to a key already present replaces the value in
    place. *)
Fixpoint dict_set (d : list (string * list Voter.t)) (k : string)
    (v : list Voter.t) : list (string * list Voter.t) :=
  match d with
  | [] => [(k, v)]
  | (k', v') :: d' =>
    if String.eqb k' k then (k', v) :: d' else (k', v') :: dict_set d' k v
  end.

Fixpoint dict_get (d : list (string * list Voter.t)) (k : string)
  : option (list Voter.t) :=
  match d with
  | [] => None
  | (k', v') :: d' => if String.eqb k' k then Some v' else dict_get d' k
  end.

(** The line printed for a precinct without voters. *)
Definition no_voters_line (p : PrecinctDict.t) : string :=
  ("Precinct '" ++ PrecinctDict.name p ++ "': No voters voted.")%string.

Section Cmd.
Context {R : RandomSource}.

(** [util.print_voters], from the module that is not at hand: the
    lines it prints for a list of voters. *)
Variable print_voters_lines : list Voter.t -> list string.

(** ["{:.2f}".format(x)] and ["{}".format(x)] for a float [x]. *)
Variable format_2f : Q -> string.
Variable format_float : Q -> string.

(** The first loop: every precinct is simulated with the same seed and
    filed under its name. *)
Fixpoint simulate_all (precincts : list PrecinctDict.t) (seed : Z)
    (voters : list (string * list Voter.t))
  : Random.M (list (string * list Voter.t)) :=
  match precincts with
  | [] => Random.ret voters
  | p :: rest =>
    (vs <- Precinct.simulate (precinct_of p)
             (PrecinctDict.percent_straight_ticket p)
             (PrecinctDict.straight_ticket_duration p) seed ;;
     simulate_all rest seed (dict_set voters (PrecinctDict.name p) vs))%rand
  end.

(** The loop under [if print_voters]. *)
Definition report_voters (voters : list (string * list Voter.t)) : list string :=
  flat_map (fun entry =>
              [("PRECINCT '" ++ fst entry ++ "'")%string] ++
              print_voters_lines (snd entry) ++ [""%string])
           voters.

(** The loop under [else].  For a precinct with voters it reads
    [pvoters[-1].departure_time]; a [Voter] has the attributes
    [arrival_time], [voting_duration], [start_time] and [end_time] and
    no other, so the read raises [AttributeError] and the statements
    after it, which would print the summary, are never reached. *)
Fixpoint summarize (precincts : list PrecinctDict.t)
    (voters : list (string * list Voter.t)) : list string * cmd_status :=
  match precincts with
  | [] => ([], Completed)
  | p :: rest =>
    let pname := PrecinctDict.name p in
    match dict_get voters pname with
    | None =>
      ([("ERROR: Precinct file specified a '" ++ pname ++ "' precinct")%string;
        "       But simulate_election_day returned no such precinct"%string;
        ""%string],
       Died (SystemExit (-1)))
    | Some pvoters =>
      if (List.length pvoters =? 0)%nat then
        let '(out, status) := summarize rest voters in
        (no_voters_line p :: out, status)
      else ([], Died AttributeError)
    end
  end.

(** The branch for a given target: only the first precinct is used,
    with 20 trials. *)
Definition report_threshold (precincts : list PrecinctDict.t) (seed : Z)
    (target_wait_time : Q) (g : Random.state) : list string * cmd_status :=
  match py_index precincts 0 with
  | Ok precinct =>
    match find_percent_split_ticket precinct target_wait_time 20 seed g with
    | Ok (Some (percent, avg_wt), _) =>
      if Qeq_bool percent 0 then
        ([("Waiting times are always below " ++ format_2f target_wait_time ++
           " in precinct '" ++ PrecinctDict.name precinct ++ "'")%string],
         Completed)
      else
        match avg_wt with
        | Some w =>
          ([("Precinct '" ++ PrecinctDict.name precinct ++
             "' exceeds average waiting time of " ++ format_2f w ++
             " with " ++ format_float (percent * 100) ++
             " percent split-ticket voters")%string],
           Completed)
        | None => ([], Died (Builtin TypeError))   (* [None] under [{:.2f}] *)
        end
    | Ok (None, _) => ([], Died (Builtin TypeError))   (* [None] cannot be unpacked *)
    | Raise e => ([], Died (Builtin e))
    | Blocked => ([], NoReturn)
    | OutOfFuel => ([], NoReturn)
    end
  | _ => ([], Died (Builtin IndexError))
  end.

Definition cmd (precincts : list PrecinctDict.t) (seed : Z)
    (target_wait_time : option Q) (print_voters : bool) (g : Random.state)
  : list string * cmd_status :=
  match target_wait_time with
  | None =>
    match simulate_all precincts seed [] g with
    | Ok (voters, _) =>
      if print_voters then (""%string :: report_voters voters, Completed)
      else let '(out, status) := summarize precincts voters in
           (""%string :: out, status)
    | Raise e => ([], Died (Builtin e))
    | Blocked => ([], NoReturn)
    | OutOfFuel => ([], NoReturn)
    end
  | Some target => report_threshold precincts seed target g
  end.

End Cmd.

(** Stand-ins for the three printing functions in the examples. *)
Definition demo_print (voters : list Voter.t) : list string :=
  map (fun _ => "voter"%string) voters.

Definition demo_format (x : Q) : string := "x"%string.

(** The voters of one precinct's day under [cmd]: the precinct's own
    share of straight-ticket voters and the common seed. *)
Definition day_of {R : RandomSource} (p : PrecinctDict.t) (seed : Z)
  : result (list Voter.t) :=
  value_from (Precinct.simulate (precinct_of p)
                (PrecinctDict.percent_straight_ticket p)
                (PrecinctDict.straight_ticket_duration p) seed) fresh.

(** * Proofs *)

(** ** Inversion of the two binds *)

Lemma bindR_Ok_inv {A B : Type} (c : result A) (k : A -> result B) (b : B) :
  bindR c k = Ok b -> exists a, c = Ok a /\ k a = Ok b.
Proof.
  destruct c as [a| | |]; simpl; intros H; try discriminate.
  exists a; split; [reflexivity | exact H].
Qed.

Lemma bind_Ok_inv {A B : Type} (c : Random.M A) (k : A -> Random.M B)
    (g : Random.state) (r : B * Random.state) :
  Random.bind c k g = Ok r ->
  exists a g1, c g = Ok (a, g1) /\ k a g1 = Ok r.
Proof.
  unfold Random.bind. destruct (c g) as [[a g1]| | |]; intros H; try discriminate.
  exists a, g1; split; [reflexivity | exact H].
Qed.

Lemma lift_Ok_inv {A : Type} (r : result A) (g g' : Random.state) (a : A) :
  Random.lift r g = Ok (a, g') -> r = Ok a /\ g' = g.
Proof.
  unfold Random.lift. destruct r; simpl; intros H; inversion H; auto.
Qed.

Lemma ret_Ok_inv {A : Type} (a b : A) (g g' : Random.state) :
  Random.ret a g = Ok (b, g') -> b = a /\ g' = g.
Proof. unfold Random.ret. intros H; inversion H; auto. Qed.

Ltac inv_bind H :=
  match type of H with
  | Random.bind _ _ _ = Ok _ =>
    let a := fresh "a" in let g := fresh "g" in
    let H1 := fresh "Hc" in let H2 := fresh "Hk" in
    apply bind_Ok_inv in H; destruct H as (a & g & H1 & H2)
  | bindR _ _ = Ok _ =>
    let a := fresh "a" in
    let H1 := fresh "Hc" in let H2 := fresh "Hk" in
    apply bindR_Ok_inv in H; destruct H as (a & H1 & H2)
  end.

(** ** Comparisons *)

Lemma Qgtb_true (x y : Q) : Qgtb x y = true <-> y < x.
Proof.
  unfold Qgtb. rewrite negb_true_iff. split; intros H.
  - apply Qnot_le_lt. intros Hle. apply Qle_bool_iff in Hle. congruence.
  - destruct (Qle_bool x y) eqn:E; [|reflexivity].
    apply Qle_bool_iff in E. exfalso. apply (Qlt_not_le _ _ H E).
Qed.

Lemma Qgtb_false (x y : Q) : Qgtb x y = false <-> x <= y.
Proof.
  unfold Qgtb. rewrite negb_false_iff. apply Qle_bool_iff.
Qed.

Lemma py_max_ge_first (a b : Q) : a <= py_max a b.
Proof.
  unfold py_max. destruct (Qgtb b a) eqn:E.
  - apply Qgtb_true in E. apply Qlt_le_weak, E.
  - apply Qle_refl.
Qed.

Lemma py_max_ge_second (a b : Q) : b <= py_max a b.
Proof.
  unfold py_max. destruct (Qgtb b a) eqn:E.
  - apply Qle_refl.
  - apply Qgtb_false in E. exact E.
Qed.

(** ** The booth pool *)

Lemma heappush_length (h : list Q) (x : Q) :
  List.length (PriorityQueue.heappush h x) = S (List.length h).
Proof.
  induction h as [|y h IH]; simpl; [reflexivity|].
  destruct (Qle_bool x y); simpl; [reflexivity | now rewrite IH].
Qed.

Lemma full_spec (b : VotingBooths.t) :
  VotingBooths.num_booths b = PriorityQueue.maxsize (VotingBooths.booths b) ->
  VotingBooths.full b = true <->
  (0 < VotingBooths.num_booths b /\
   VotingBooths.num_booths b <= Z.of_nat (VotingBooths.size b))%Z.
Proof.
  intros Hn. unfold VotingBooths.full, PriorityQueue.full, VotingBooths.size,
    PriorityQueue.qsize. rewrite <- Hn.
  rewrite andb_true_iff, Z.ltb_lt, Z.leb_le. reflexivity.
Qed.

Lemma init_pool_ok (n : Z) : pool_ok (VotingBooths.init n).
Proof.
  unfold pool_ok, VotingBooths.init, VotingBooths.size; simpl.
  split; [reflexivity | lia].
Qed.

Lemma put_not_full (b : VotingBooths.t) (x : Q) :
  VotingBooths.full b = false ->
  exists b', VotingBooths.put b x = Ok b' /\
    VotingBooths.num_booths b' = VotingBooths.num_booths b /\
    PriorityQueue.maxsize (VotingBooths.booths b') =
      PriorityQueue.maxsize (VotingBooths.booths b) /\
    VotingBooths.size b' = S (VotingBooths.size b).
Proof.
  unfold VotingBooths.full, PriorityQueue.full, VotingBooths.put, PriorityQueue.put.
  intros ->. simpl. eexists; split; [reflexivity|].
  unfold VotingBooths.size; simpl. rewrite heappush_length. auto.
Qed.

Lemma get_full (b : VotingBooths.t) :
  VotingBooths.num_booths b = PriorityQueue.maxsize (VotingBooths.booths b) ->
  VotingBooths.full b = true ->
  exists x b', VotingBooths.get b = Ok (x, b') /\
    VotingBooths.num_booths b' = VotingBooths.num_booths b /\
    PriorityQueue.maxsize (VotingBooths.booths b') =
      PriorityQueue.maxsize (VotingBooths.booths b) /\
    S (VotingBooths.size b') = VotingBooths.size b.
Proof.
  intros Hn Hf. apply full_spec in Hf; [|exact Hn]. destruct Hf as [Hpos Hsz].
  unfold VotingBooths.get, PriorityQueue.get, VotingBooths.size in *.
  destruct (PriorityQueue.queue (VotingBooths.booths b)) as [|x h] eqn:E.
  - simpl in Hsz. lia.
  - simpl. exists x. eexists. split; [reflexivity|]. simpl. auto.
Qed.

(** ** One voter is given a booth *)

Lemma update_causal (v : Voter.t) (s : Q) :
  Voter.arrival_time v <= s -> causal (Voter.update_startend_times v s).
Proof.
  intros Hs. exists s, (s + Voter.voting_duration v). simpl.
  repeat split; auto; apply Qeq_refl.
Qed.

Lemma put_end_time_update (b : VotingBooths.t) (v : Voter.t) (s : Q) :
  Precinct.put_end_time b (Voter.update_startend_times v s) =
  VotingBooths.put b (s + Voter.voting_duration v).
Proof. reflexivity. Qed.

(** While the pool is not full the voter starts on arrival and the
    pool grows by one entry. *)
Lemma assign_not_full (b : VotingBooths.t) (v : Voter.t) :
  VotingBooths.full b = false ->
  exists b',
    Precinct.assign b v =
      Ok (Voter.update_startend_times v (Voter.arrival_time v), b') /\
    VotingBooths.num_booths b' = VotingBooths.num_booths b /\
    PriorityQueue.maxsize (VotingBooths.booths b') =
      PriorityQueue.maxsize (VotingBooths.booths b) /\
    VotingBooths.size b' = S (VotingBooths.size b).
Proof.
  intros Hf. unfold Precinct.assign. rewrite Hf. simpl negb. cbv iota.
  rewrite put_end_time_update.
  destruct (put_not_full b
              (Voter.arrival_time v + Voter.voting_duration v) Hf)
    as (b' & Hput & Hn & Hm & Hs).
  exists b'. rewrite Hput. simpl. auto.
Qed.

(** Once the pool is full the earliest departure is taken out, the
    voter starts at the later of that time and the arrival, and the
    new departure goes in: the size is unchanged. *)
Lemma assign_full (b : VotingBooths.t) (v : Voter.t) :
  pool_ok b -> VotingBooths.full b = true ->
  exists free b1 b',
    VotingBooths.get b = Ok (free, b1) /\
    S (VotingBooths.size b1) = VotingBooths.size b /\
    Precinct.assign b v =
      Ok (Voter.update_startend_times v (py_max (Voter.arrival_time v) free), b') /\
    VotingBooths.num_booths b' = VotingBooths.num_booths b /\
    PriorityQueue.maxsize (VotingBooths.booths b') =
      PriorityQueue.maxsize (VotingBooths.booths b) /\
    VotingBooths.size b' = VotingBooths.size b.
Proof.
  intros [Hn Hsz] Hf.
  destruct (get_full b Hn Hf) as (free & b1 & Hget & Hn1 & Hm1 & Hs1).
  assert (Hnf : VotingBooths.full b1 = false).
  { apply full_spec in Hf; [|exact Hn]. destruct Hf as [Hpos Hge].
    destruct (VotingBooths.full b1) eqn:E; [|reflexivity].
    apply full_spec in E; [|congruence]. lia. }
  destruct (put_not_full b1
              (py_max (Voter.arrival_time v) free + Voter.voting_duration v) Hnf)
    as (b' & Hput & Hn' & Hm' & Hs').
  exists free, b1, b'. split; [exact Hget|]. split; [exact Hs1|].
  unfold Precinct.assign. rewrite Hf, Hget. simpl.
  rewrite put_end_time_update, Hput. simpl.
  repeat split; congruence.
Qed.

(** Whatever the state of a well-formed pool, the voter is served. *)
Lemma assign_total (b : VotingBooths.t) (v : Voter.t) :
  pool_ok b ->
  exists s b',
    Precinct.assign b v = Ok (Voter.update_startend_times v s, b') /\
    Voter.arrival_time v <= s /\
    pool_ok b' /\
    VotingBooths.num_booths b' = VotingBooths.num_booths b /\
    VotingBooths.size b' =
      (if VotingBooths.full b then VotingBooths.size b else S (VotingBooths.size b)).
Proof.
  intros Hok. destruct (VotingBooths.full b) eqn:Hf.
  - destruct (assign_full b v Hok Hf)
      as (free & b1 & b' & _ & _ & Ha & Hn & Hm & Hs).
    exists (py_max (Voter.arrival_time v) free), b'.
    split; [exact Ha|]. split; [apply py_max_ge_first|].
    destruct Hok as [Hn0 Hsz]. unfold pool_ok. rewrite Hn, Hm, Hs. auto.
  - destruct (assign_not_full b v Hf) as (b' & Ha & Hn & Hm & Hs).
    exists (Voter.arrival_time v), b'.
    split; [exact Ha|]. split; [apply Qle_refl|].
    destruct Hok as [Hn0 Hsz]. unfold pool_ok. rewrite Hn, Hm, Hs.
    repeat split; auto.
    destruct (Z_le_gt_dec (VotingBooths.num_booths b) 0) as [Hle|Hgt]; [left; exact Hle|].
    right.
    destruct (Z_lt_le_dec (Z.of_nat (VotingBooths.size b)) (VotingBooths.num_booths b))
      as [Hlt|Hge]; [lia|].
    exfalso. assert (VotingBooths.full b = true); [|congruence].
    apply full_spec; [exact Hn0 | lia].
Qed.

(** ** The whole assignment phase *)

Lemma assign_all_total (voters : list Voter.t) :
  forall b, pool_ok b ->
  exists served b',
    Precinct.assign_all b voters = Ok (served, b') /\
    pool_ok b' /\
    VotingBooths.num_booths b' = VotingBooths.num_booths b /\
    Z.of_nat (VotingBooths.size b') =
      size_after (VotingBooths.num_booths b) (VotingBooths.size b) (List.length voters) /\
    Forall2 (fun v v' => exists s, v' = Voter.update_startend_times v s /\
                                   Voter.arrival_time v <= s) voters served.
Proof.
  induction voters as [|v rest IH]; intros b Hok.
  - exists [], b. simpl.
    split; [reflexivity|]. split; [exact Hok|]. split; [reflexivity|].
    split; [|constructor].
    unfold size_after. destruct Hok as [Hn Hsz].
    destruct (0 <? VotingBooths.num_booths b)%Z eqn:E; [|lia].
    apply Z.ltb_lt in E. lia.
  - destruct (assign_total b v Hok) as (s & b1 & Ha & Hs & Hok1 & Hn1 & Hsz1).
    destruct (IH b1 Hok1) as (served & b' & Hall & Hok' & Hn' & Hsz' & Hrel).
    exists (Voter.update_startend_times v s :: served), b'.
    simpl. rewrite Ha. simpl. rewrite Hall. simpl.
    split; [reflexivity|]. split; [exact Hok'|].
    split; [congruence|]. split.
    + rewrite Hsz', Hn1, Hsz1. unfold size_after.
      destruct Hok as [Hn Hle].
      destruct (VotingBooths.full b) eqn:Hf.
      * apply full_spec in Hf; [|exact Hn]. destruct Hf as [Hpos Hge].
        assert (E : (0 <? VotingBooths.num_booths b)%Z = true) by (apply Z.ltb_lt; lia).
        rewrite E. lia.
      * destruct (0 <? VotingBooths.num_booths b)%Z eqn:E; [|lia].
        apply Z.ltb_lt in E.
        assert (Z.of_nat (VotingBooths.size b) < VotingBooths.num_booths b)%Z; [|lia].
        destruct (Z_lt_le_dec (Z.of_nat (VotingBooths.size b)) (VotingBooths.num_booths b))
          as [Hlt|Hge]; [exact Hlt|].
        exfalso. assert (VotingBooths.full b = true); [|congruence].
        apply full_spec; [exact Hn | lia].
    + constructor; [|exact Hrel]. exists s. auto.
Qed.

Lemma assign_all_app (xs ys : list Voter.t) :
  forall b xs' b1 ys' b2,
    Precinct.assign_all b xs = Ok (xs', b1) ->
    Precinct.assign_all b1 ys = Ok (ys', b2) ->
    Precinct.assign_all b (xs ++ ys) = Ok (xs' ++ ys', b2).
Proof.
  induction xs as [|x xs IH]; intros b xs' b1 ys' b2 H1 H2; simpl in *.
  - inversion H1; subst. exact H2.
  - inv_bind H1. destruct a as [x' bx]. inv_bind Hk. destruct a as [r br].
    inversion Hk0; subst. rewrite Hc. simpl.
    rewrite (IH _ _ _ _ _ Hc0 H2). reflexivity.
Qed.

(** ** [simulate] as its two phases *)

Section SimulateFacts.
Context {R : RandomSource}.

Lemma simulate_unfold (self : Precinct.t) (pst std : Q) (s : Z) (g : Random.state) :
  Precinct.simulate self pst std s g =
  match Precinct.arrivals (Precinct.fuel_for self) self pst std [] 0 (seeded s) with
  | Ok (voters, g') =>
    match Precinct.assign_all (VotingBooths.init (Precinct.num_booths self)) voters with
    | Ok (served, _) => Ok (served, g')
    | Raise e => Raise e
    | Blocked => Blocked
    | OutOfFuel => OutOfFuel
    end
  | Raise e => Raise e
  | Blocked => Blocked
  | OutOfFuel => OutOfFuel
  end.
Proof.
  unfold Precinct.simulate, Random.bind, Random.seed, seeded. cbv beta iota.
  destruct (Precinct.arrivals _ _ _ _ _ _ _) as [[voters g']| | |]; try reflexivity.
  unfold Random.lift.
  destruct (Precinct.assign_all _ _) as [[served b]| | |]; reflexivity.
Qed.

(** The call reseeds the generator, so the state it starts from does
    not matter. *)
Lemma simulate_reseeds (self : Precinct.t) (pst std : Q) (s : Z) (g1 g2 : Random.state) :
  Precinct.simulate self pst std s g1 = Precinct.simulate self pst std s g2.
Proof. rewrite !simulate_unfold. reflexivity. Qed.

(** The assignment phase always completes: the outcome of [simulate]
    is decided by the arrival phase. *)
Lemma simulate_of_arrivals (self : Precinct.t) (pst std : Q) (s : Z) (g : Random.state)
    (voters : list Voter.t) (g' : Random.state) :
  Precinct.arrivals (Precinct.fuel_for self) self pst std [] 0 (seeded s) = Ok (voters, g') ->
  exists served b,
    Precinct.assign_all (VotingBooths.init (Precinct.num_booths self)) voters =
      Ok (served, b) /\
    Precinct.simulate self pst std s g = Ok (served, g').
Proof.
  intros Ha.
  destruct (assign_all_total voters _ (init_pool_ok (Precinct.num_booths self)))
    as (served & b & Hall & _).
  exists served, b. split; [exact Hall|].
  rewrite simulate_unfold, Ha, Hall. reflexivity.
Qed.

Lemma simulate_Ok_inv (self : Precinct.t) (pst std : Q) (s : Z) (g : Random.state)
    (served : list Voter.t) (g' : Random.state) :
  Precinct.simulate self pst std s g = Ok (served, g') ->
  exists voters b,
    Precinct.arrivals (Precinct.fuel_for self) self pst std [] 0 (seeded s) =
      Ok (voters, g') /\
    Precinct.assign_all (VotingBooths.init (Precinct.num_booths self)) voters =
      Ok (served, b).
Proof.
  rewrite simulate_unfold.
  destruct (Precinct.arrivals _ _ _ _ _ _ _) as [[voters g1]| | |]; try discriminate.
  destruct (Precinct.assign_all _ _) as [[sv b]| | |] eqn:E; try discriminate.
  intros H; inversion H; subst. exists voters, b. auto.
Qed.

End SimulateFacts.

(** ** The draws of one candidate voter *)

Section ArrivalFacts.
Context {R : RandomSource}.

(** The body of the loop written out on the generator state. *)
Lemma draw_candidate_unfold (self : Precinct.t) (pst std : Q) (g : Random.state) :
  Precinct.draw_candidate self pst std g =
  let T := Random.tape g in
  let n := Random.pos g in
  if Qle_bool (T n) pst then
    if Qeq_bool (Precinct.arrival_rate self) 0 then Raise ZeroDivisionError
    else Ok ((std, - log (1 - T (S n)) / Precinct.arrival_rate self),
             {| Random.tape := T; Random.pos := S (S n) |})
  else
    if Qeq_bool (Precinct.voting_duration_rate self) 0 then Raise ZeroDivisionError
    else if Qeq_bool (Precinct.arrival_rate self) 0 then Raise ZeroDivisionError
    else Ok ((- log (1 - T (S n)) / Precinct.voting_duration_rate self,
              - log (1 - T (S (S n))) / Precinct.arrival_rate self),
             {| Random.tape := T; Random.pos := S (S (S n)) |}).
Proof.
  unfold Precinct.draw_candidate, Random.bind, Random.random, Random.expovariate,
    Random.ret, Random.raise. cbv beta iota zeta.
  destruct (Qle_bool (Random.tape g (Random.pos g)) pst); cbn [Random.tape Random.pos].
  - destruct (Qeq_bool (Precinct.arrival_rate self) 0); reflexivity.
  - destruct (Qeq_bool (Precinct.voting_duration_rate self) 0); [reflexivity|].
    cbn [Random.tape Random.pos].
    destruct (Qeq_bool (Precinct.arrival_rate self) 0); reflexivity.
Qed.

Lemma draw_candidate_tape (self : Precinct.t) (pst std : Q) (g g' : Random.state)
    (c : Q * Q) :
  Precinct.draw_candidate self pst std g = Ok (c, g') ->
  Random.tape g' = Random.tape g.
Proof.
  rewrite draw_candidate_unfold. cbv zeta.
  repeat match goal with |- context [if ?b then _ else _] => destruct b end;
    intros H; inversion H; reflexivity.
Qed.

(** A candidate is drawn, or a zero rate makes the division fail. *)
Lemma draw_candidate_outcome (self : Precinct.t) (pst std : Q) (g : Random.state) :
  (exists c g', Precinct.draw_candidate self pst std g = Ok (c, g')) \/
  Precinct.draw_candidate self pst std g = Raise ZeroDivisionError.
Proof.
  rewrite draw_candidate_unfold. cbv zeta.
  repeat match goal with |- context [if ?b then _ else _] => destruct b end;
    eauto.
Qed.

Lemma draw_candidate_nonzero (self : Precinct.t) (pst std : Q) (g : Random.state) :
  ~ Precinct.arrival_rate self == 0 ->
  ~ Precinct.voting_duration_rate self == 0 ->
  exists c g', Precinct.draw_candidate self pst std g = Ok (c, g').
Proof.
  intros Ha Hv. rewrite draw_candidate_unfold. cbv zeta.
  destruct (Qeq_bool (Precinct.arrival_rate self) 0) eqn:Ea.
  { apply Qeq_bool_iff in Ea. contradiction. }
  destruct (Qeq_bool (Precinct.voting_duration_rate self) 0) eqn:Ev.
  { apply Qeq_bool_iff in Ev. contradiction. }
  destruct (Qle_bool _ _); eauto.
Qed.

Lemma draw_candidate_zero_arrival_rate (self : Precinct.t) (pst std : Q)
    (g : Random.state) :
  Precinct.arrival_rate self == 0 ->
  Precinct.draw_candidate self pst std g = Raise ZeroDivisionError.
Proof.
  intros Ha. apply Qeq_bool_iff in Ha. rewrite draw_candidate_unfold. cbv zeta.
  rewrite Ha.
  repeat match goal with |- context [if ?b then _ else _] => destruct b end;
    reflexivity.
Qed.

(** ** The arrival loop *)

Lemma arrivals_step (fuel : nat) (self : Precinct.t) (pst std : Q)
    (voters : list Voter.t) (cur : Q) (g : Random.state) :
  Precinct.arrivals (S fuel) self pst std voters cur g =
  if (Z.of_nat (List.length voters) + 1 <=? Precinct.max_num_voters self)%Z then
    match Precinct.draw_candidate self pst std g with
    | Ok ((d, gap), g1) =>
      if Qgtb (cur + gap) (inject_Z (Precinct.minutes_open self))
      then Ok (voters, g1)
      else Precinct.arrivals fuel self pst std
             (voters ++ [Voter.init (cur + gap) d]) (cur + gap) g1
    | Raise e => Raise e
    | Blocked => Blocked
    | OutOfFuel => OutOfFuel
    end
  else Ok (voters, g).
Proof.
  cbn [Precinct.arrivals].
  destruct (_ <=? _)%Z; [|reflexivity].
  unfold Random.bind.
  destruct (Precinct.draw_candidate self pst std g) as [[[d gap] g1]| | |];
    try reflexivity.
  destruct (Qgtb _ _); reflexivity.
Qed.

(** The loop returns, or a zero rate stops it, as soon as the budget
    exceeds the number of voters still admissible. *)
Lemma arrivals_outcome (self : Precinct.t) (pst std : Q) (fuel : nat) :
  forall voters cur g,
    fuel <> O ->
    (Precinct.max_num_voters self < Z.of_nat (List.length voters) + Z.of_nat fuel)%Z ->
    (exists res g', Precinct.arrivals fuel self pst std voters cur g = Ok (res, g')) \/
    Precinct.arrivals fuel self pst std voters cur g = Raise ZeroDivisionError.
Proof.
  induction fuel as [|fuel IH]; intros voters cur g Hnz Hfuel; [congruence|].
  rewrite arrivals_step.
  destruct (_ <=? _)%Z eqn:Hguard; [|left; eauto].
  apply Z.leb_le in Hguard.
  destruct (draw_candidate_outcome self pst std g) as [([d gap] & g1 & Hd)|Hd];
    rewrite Hd; [|right; reflexivity].
  destruct (Qgtb _ _); [left; eauto|].
  apply IH.
  - intros ->. simpl in Hfuel. lia.
  - rewrite length_app. simpl. lia.
Qed.

Lemma arrivals_returns (self : Precinct.t) (pst std : Q) (fuel : nat) :
  ~ Precinct.arrival_rate self == 0 ->
  ~ Precinct.voting_duration_rate self == 0 ->
  forall voters cur g,
    fuel <> O ->
    (Precinct.max_num_voters self < Z.of_nat (List.length voters) + Z.of_nat fuel)%Z ->
    exists res g', Precinct.arrivals fuel self pst std voters cur g = Ok (res, g').
Proof.
  intros Ha Hv.
  induction fuel as [|fuel IH]; intros voters cur g Hnz Hfuel; [congruence|].
  rewrite arrivals_step.
  destruct (_ <=? _)%Z eqn:Hguard; [|eauto].
  apply Z.leb_le in Hguard.
  destruct (draw_candidate_nonzero self pst std g Ha Hv) as ([d gap] & g1 & Hd).
  rewrite Hd.
  destruct (Qgtb _ _); [eauto|].
  apply IH.
  - intros ->. simpl in Hfuel. lia.
  - rewrite length_app. simpl. lia.
Qed.

Lemma fuel_for_enough (self : Precinct.t) :
  Precinct.fuel_for self <> O /\
  (Precinct.max_num_voters self <
     Z.of_nat (List.length (@nil Voter.t)) + Z.of_nat (Precinct.fuel_for self))%Z.
Proof.
  unfold Precinct.fuel_for. split; [discriminate|]. simpl List.length. lia.
Qed.

(** A property of the recorded voters and the clock that every pass
    through the loop keeps is a property of the loop's result.  [T]
    is the sequence the generator was seeded with. *)
Lemma arrivals_invariant (self : Precinct.t) (pst std : Q) (T : nat -> Q)
    (P : list Voter.t -> Q -> Prop) :
  (forall voters cur d gap g g1,
      P voters cur ->
      (Z.of_nat (List.length voters) + 1 <= Precinct.max_num_voters self)%Z ->
      Random.tape g = T ->
      Precinct.draw_candidate self pst std g = Ok ((d, gap), g1) ->
      cur + gap <= inject_Z (Precinct.minutes_open self) ->
      P (voters ++ [Voter.init (cur + gap) d]) (cur + gap)) ->
  forall fuel voters cur g res g',
    Random.tape g = T -> P voters cur ->
    Precinct.arrivals fuel self pst std voters cur g = Ok (res, g') ->
    exists cur', P res cur'.
Proof.
  intros Hstep.
  induction fuel as [|fuel IH]; intros voters cur g res g' HT HP Hrun;
    [discriminate|].
  rewrite arrivals_step in Hrun.
  destruct (_ <=? _)%Z eqn:Hguard.
  - apply Z.leb_le in Hguard.
    destruct (Precinct.draw_candidate self pst std g) as [[[d gap] g1]| | |] eqn:Hd;
      try discriminate.
    destruct (Qgtb _ _) eqn:Hclose.
    + inversion Hrun; subst. eauto.
    + apply Qgtb_false in Hclose.
      apply (IH _ _ _ _ _ (eq_trans (draw_candidate_tape _ _ _ _ _ _ Hd) HT)
                (Hstep _ _ _ _ _ _ HP Hguard HT Hd Hclose) Hrun).
  - inversion Hrun; subst. eauto.
Qed.

(** With a zero arrival rate the first pass through the loop fails. *)
Lemma arrivals_zero_arrival_rate (self : Precinct.t) (pst std : Q) (fuel : nat)
    (cur : Q) (g : Random.state) :
  Precinct.arrival_rate self == 0 ->
  (1 <= Precinct.max_num_voters self)%Z ->
  Precinct.arrivals (S fuel) self pst std [] cur g = Raise ZeroDivisionError.
Proof.
  intros Ha Hmax. rewrite arrivals_step. simpl List.length.
  assert (E : (Z.of_nat 0 + 1 <=? Precinct.max_num_voters self)%Z = true)
    by (apply Z.leb_le; lia).
  rewrite E, (draw_candidate_zero_arrival_rate _ _ _ _ Ha). reflexivity.
Qed.

(** [simulate] never hangs: it returns, or a zero rate makes it raise
    [ZeroDivisionError]. *)
Lemma simulate_outcome (self : Precinct.t) (pst std : Q) (seed : Z) (g : Random.state) :
  (exists voters g', Precinct.simulate self pst std seed g = Ok (voters, g')) \/
  Precinct.simulate self pst std seed g = Raise ZeroDivisionError.
Proof.
  destruct (fuel_for_enough self) as [Hnz Hfuel].
  destruct (arrivals_outcome self pst std _ [] 0 (seeded seed) Hnz Hfuel)
    as [(arrived & g1 & Ha)|Ha].
  - left. destruct (simulate_of_arrivals self pst std seed g arrived g1 Ha)
      as (served & b & _ & Hsim). eauto.
  - right. rewrite simulate_unfold, Ha. reflexivity.
Qed.

(** The two ways through the body of the loop. *)
Lemma draw_candidate_cases (self : Precinct.t) (pst std : Q)
    (g : Random.state) (d gap : Q) (g' : Random.state) :
  Precinct.draw_candidate self pst std g = Ok ((d, gap), g') ->
  let T := Random.tape g in
  let n := Random.pos g in
  Random.tape g' = T /\
  ((T n <= pst /\
    d = std /\
    gap = - log (1 - T (n + 1)%nat) / Precinct.arrival_rate self /\
    Random.pos g' = (n + 2)%nat) \/
   (pst < T n /\
    d = - log (1 - T (n + 1)%nat) / Precinct.voting_duration_rate self /\
    gap = - log (1 - T (n + 2)%nat) / Precinct.arrival_rate self /\
    Random.pos g' = (n + 3)%nat)).
Proof.
  intros Hd T n. split; [apply (draw_candidate_tape _ _ _ _ _ _ Hd)|].
  rewrite draw_candidate_unfold in Hd. cbv zeta in Hd. fold T n in Hd.
  replace (n + 1)%nat with (S n) by lia.
  replace (n + 2)%nat with (S (S n)) by lia.
  replace (n + 3)%nat with (S (S (S n))) by lia.
  destruct (Qle_bool (T n) pst) eqn:Hclass.
  - left. apply Qle_bool_iff in Hclass.
    destruct (Qeq_bool (Precinct.arrival_rate self) 0); [discriminate|].
    inversion Hd; subst. auto.
  - right.
    assert (Hlt : pst < T n).
    { apply Qnot_le_lt. intros Hle. apply Qle_bool_iff in Hle. congruence. }
    destruct (Qeq_bool (Precinct.voting_duration_rate self) 0); [discriminate|].
    destruct (Qeq_bool (Precinct.arrival_rate self) 0); [discriminate|].
    inversion Hd; subst. auto.
Qed.

End ArrivalFacts.

(** ** The two example sources obey the documented ranges *)

Lemma tenths_laws : RandomSourceLaws tenths.
Proof.
  split.
  - intros s n. cbn [mt tenths].
    pose proof (Z.mod_pos_bound (Z.abs s + 7 * Z.of_nat n) 10 eq_refl) as [Hlo Hhi].
    set (m := ((Z.abs s + 7 * Z.of_nat n) mod 10)%Z) in *. clearbody m.
    unfold Qdiv, Qmult, Qinv, Qle, Qlt, inject_Z; simpl. lia.
  - intros x _ Hx. simpl. lra.
Qed.

Lemma zero_first_laws : RandomSourceLaws zero_first.
Proof.
  split.
  - intros s [|n]; simpl; split; lra.
  - intros x _ Hx. simpl. lra.
Qed.

(** ** Causality *)

Lemma served_causal (voters served : list Voter.t) :
  Forall2 (fun v v' => exists s, v' = Voter.update_startend_times v s /\
                                 Voter.arrival_time v <= s) voters served ->
  Forall causal served.
Proof.
  induction 1 as [|v v' voters served (s & -> & Hs) _ IH]; constructor.
  - apply update_causal, Hs.
  - exact IH.
Qed.

Lemma simulate_causal {R : RandomSource} (self : Precinct.t) (pst std : Q)
    (seed : Z) (g : Random.state) (voters : list Voter.t) (g' : Random.state) :
  Precinct.simulate self pst std seed g = Ok (voters, g') ->
  Forall causal voters.
Proof.
  intros Hsim.
  destruct (simulate_Ok_inv _ _ _ _ _ _ _ Hsim) as (arrived & b & _ & Hall).
  destruct (assign_all_total arrived _ (init_pool_ok (Precinct.num_booths self)))
    as (served & b' & Hall' & _ & _ & _ & Hrel).
  rewrite Hall in Hall'. inversion Hall'; subst.
  apply (served_causal _ _ Hrel).
Qed.

(** C7.  Every voter returned by [simulate] has both times set, starts
    no earlier than the arrival, and ends exactly one voting duration
    after the start. *)
Theorem simulate_causality {R : RandomSource} (self : Precinct.t) (pst std : Q)
    (seed : Z) (g : Random.state) (voters : list Voter.t) (g' : Random.state) :
  Precinct.simulate self pst std seed g = Ok (voters, g') ->
  Forall (fun v =>
            exists s e,
              Voter.start_time v = Some s /\ Voter.end_time v = Some e /\
              Voter.arrival_time v <= s /\ e == s + Voter.voting_duration v)
         voters.
Proof. apply simulate_causal. Qed.

Lemma simulate_causality_witness :
  exists voters g',
    Precinct.simulate (R := tenths) demo_precinct (1 # 2) 2 0 fresh = Ok (voters, g') /\
    Forall (fun v =>
              exists s e,
                Voter.start_time v = Some s /\ Voter.end_time v = Some e /\
                Voter.arrival_time v <= s /\ e == s + Voter.voting_duration v)
           voters.
Proof.
  eexists. eexists. split.
  - vm_compute. reflexivity.
  - eapply (simulate_causality (R := tenths) demo_precinct (1 # 2) 2 0 fresh).
    vm_compute. reflexivity.
Defined.

(** ** The size of the booth pool *)

(** C9.  With [N >= 1] booths, the pool reached after the first [k]
    voters of any list holds exactly [min N k] departure times, which
    is at most [N]; the pool left by the [get] that precedes a [put]
    on a full pool is within the bound too; and the run over the whole
    list passes through that pool. *)
Theorem pool_size_invariant (N : Z) (voters : list Voter.t) (k : nat) :
  (1 <= N)%Z -> (k <= List.length voters)%nat ->
  exists served b rest b_end,
    Precinct.assign_all (VotingBooths.init N) (firstn k voters) = Ok (served, b) /\
    Precinct.assign_all b (skipn k voters) = Ok (rest, b_end) /\
    Precinct.assign_all (VotingBooths.init N) voters = Ok (served ++ rest, b_end) /\
    Z.of_nat (VotingBooths.size b) = Z.min N (Z.of_nat k) /\
    (Z.of_nat (VotingBooths.size b) <= N)%Z /\
    (forall free b1, VotingBooths.get b = Ok (free, b1) ->
                     (Z.of_nat (VotingBooths.size b1) <= N)%Z).
Proof.
  intros HN Hk.
  destruct (assign_all_total (firstn k voters) _ (init_pool_ok N))
    as (served & b & H1 & Hok & Hn & Hsz & _).
  destruct (assign_all_total (skipn k voters) b Hok)
    as (rest & b_end & H2 & _).
  exists served, b, rest, b_end.
  split; [exact H1|]. split; [exact H2|]. split.
  { rewrite <- (firstn_skipn k voters) at 1. apply (assign_all_app _ _ _ _ _ _ _ H1 H2). }
  assert (Hsize : Z.of_nat (VotingBooths.size b) = Z.min N (Z.of_nat k)).
  { rewrite Hsz. unfold size_after. simpl VotingBooths.num_booths.
    assert (E : (0 <? N)%Z = true) by (apply Z.ltb_lt; lia). rewrite E.
    rewrite firstn_length_le by exact Hk.
    unfold VotingBooths.size. simpl. lia. }
  split; [exact Hsize|]. split; [lia|].
  intros free b1 Hget. unfold VotingBooths.get, PriorityQueue.get in Hget.
  unfold VotingBooths.size in *.
  destruct (PriorityQueue.queue (VotingBooths.booths b)) as [|x h]; [discriminate|].
  simpl in Hget. inversion Hget; subst. simpl in *. lia.
Qed.

Lemma pool_size_invariant_witness :
  exists served b rest b_end,
    Precinct.assign_all (VotingBooths.init 2)
      (firstn 3 [Voter.init 1 5; Voter.init 2 5; Voter.init 3 5; Voter.init 4 5]) =
      Ok (served, b) /\
    Precinct.assign_all b
      (skipn 3 [Voter.init 1 5; Voter.init 2 5; Voter.init 3 5; Voter.init 4 5]) =
      Ok (rest, b_end) /\
    Precinct.assign_all (VotingBooths.init 2)
      [Voter.init 1 5; Voter.init 2 5; Voter.init 3 5; Voter.init 4 5] =
      Ok (served ++ rest, b_end) /\
    Z.of_nat (VotingBooths.size b) = Z.min 2 (Z.of_nat 3) /\
    (Z.of_nat (VotingBooths.size b) <= 2)%Z /\
    (forall free b1, VotingBooths.get b = Ok (free, b1) ->
                     (Z.of_nat (VotingBooths.size b1) <= 2)%Z).
Proof.
  apply (pool_size_invariant 2
           [Voter.init 1 5; Voter.init 2 5; Voter.init 3 5; Voter.init 4 5] 3).
  - lia.
  - simpl. lia.
Defined.

(** ** A pool without capacity limit *)

Lemma assign_all_unbounded (voters : list Voter.t) :
  forall b,
    (PriorityQueue.maxsize (VotingBooths.booths b) <= 0)%Z ->
    exists b', Precinct.assign_all b voters = Ok (map start_on_arrival voters, b').
Proof.
  induction voters as [|v rest IH]; intros b Hmax; simpl.
  - eauto.
  - assert (Hf : VotingBooths.full b = false).
    { unfold VotingBooths.full, PriorityQueue.full.
      apply andb_false_iff. left. apply Z.ltb_ge. exact Hmax. }
    destruct (assign_not_full b v Hf) as (b1 & Ha & _ & Hm & _).
    rewrite Ha. simpl.
    destruct (IH b1) as (b' & Hall); [rewrite Hm; exact Hmax|].
    rewrite Hall. simpl. eauto.
Qed.

Lemma start_on_arrival_served (v : Voter.t) : served_on_arrival (start_on_arrival v).
Proof.
  split; [reflexivity|].
  exists (Voter.arrival_time v - Voter.arrival_time v). split; [reflexivity|].
  unfold Qminus. apply Qplus_opp_r.
Qed.

(** C10.  With [num_booths = 0] the queue is built with [maxsize] 0,
    which [PriorityQueue] reads as unbounded: whatever it holds it is
    not full.  The assignment phase then serves every recorded voter
    on arrival, so [simulate] returns whenever the arrival phase does,
    which it does for non-zero rates, and nobody waits. *)
Theorem zero_booths_no_wait {R : RandomSource} (self : Precinct.t) (pst std : Q)
    (seed : Z) (g : Random.state) :
  Precinct.num_booths self = 0%Z ->
  (forall items,
      VotingBooths.full
        {| VotingBooths.num_booths := Precinct.num_booths self;
           VotingBooths.booths :=
             {| PriorityQueue.maxsize := Precinct.num_booths self;
                PriorityQueue.queue := items |} |} = false) /\
  (forall arrived g1,
      Precinct.arrivals (Precinct.fuel_for self) self pst std [] 0 (seeded seed) =
        Ok (arrived, g1) ->
      Precinct.simulate self pst std seed g = Ok (map start_on_arrival arrived, g1)) /\
  (~ Precinct.arrival_rate self == 0 ->
   ~ Precinct.voting_duration_rate self == 0 ->
   exists voters g',
     Precinct.simulate self pst std seed g = Ok (voters, g') /\
     Forall served_on_arrival voters).
Proof.
  intros Hzero.
  assert (Hrun : forall arrived g1,
      Precinct.arrivals (Precinct.fuel_for self) self pst std [] 0 (seeded seed) =
        Ok (arrived, g1) ->
      Precinct.simulate self pst std seed g = Ok (map start_on_arrival arrived, g1)).
  { intros arrived g1 Ha.
    destruct (assign_all_unbounded arrived (VotingBooths.init (Precinct.num_booths self)))
      as (b' & Hall); [simpl; lia|].
    rewrite simulate_unfold, Ha, Hall. reflexivity. }
  split; [|split].
  - intros items. rewrite Hzero. reflexivity.
  - exact Hrun.
  - intros Har Hvr.
    destruct (fuel_for_enough self) as [Hnz Hfuel].
    destruct (arrivals_returns self pst std _ Har Hvr [] 0 (seeded seed) Hnz Hfuel)
      as (arrived & g1 & Ha).
    exists (map start_on_arrival arrived), g1. split; [apply Hrun, Ha|].
    apply Forall_forall. intros v Hin. apply in_map_iff in Hin.
    destruct Hin as (v0 & <- & _). apply start_on_arrival_served.
Qed.

Lemma zero_booths_no_wait_witness :
  exists voters g',
    Precinct.simulate (R := tenths) (Precinct.init "none" 1 4 0 (1 # 10) (2 # 10))
      (1 # 2) 2 0 fresh = Ok (voters, g') /\
    Forall served_on_arrival voters.
Proof.
  apply (zero_booths_no_wait (R := tenths)
           (Precinct.init "none" 1 4 0 (1 # 10) (2 # 10)) (1 # 2) 2 0 fresh).
  - reflexivity.
  - vm_compute. discriminate.
  - vm_compute. discriminate.
Defined.

(** ** Arrival times *)

Lemma StronglySorted_snoc (l : list Q) (a : Q) :
  StronglySorted Qle l -> Forall (fun x => x <= a) l ->
  StronglySorted Qle (l ++ [a]).
Proof.
  induction 1 as [|x l Hl IH Hx]; intros Ha; simpl.
  - repeat constructor.
  - inversion Ha; subst. constructor; [apply IH; assumption|].
    apply Forall_app. split; [exact Hx|]. constructor; [assumption|constructor].
Qed.

Section ArrivalTimes.
Context {R : RandomSource} {L : RandomSourceLaws R}.

Lemma expo_nonneg (u rate : Q) :
  0 <= u -> u < 1 -> 0 < rate -> 0 <= - log (1 - u) / rate.
Proof.
  intros Hlo Hhi Hrate.
  apply Qle_shift_div_l; [exact Hrate|].
  assert (Hlog : log (1 - u) <= 0) by (apply log_nonpos; lra).
  lra.
Qed.

(** A gap drawn at a positive arrival rate is not negative. *)
Lemma draw_candidate_gap_nonneg (self : Precinct.t) (pst std : Q) (s : Z)
    (g g1 : Random.state) (d gap : Q) :
  0 < Precinct.arrival_rate self ->
  Random.tape g = mt s ->
  Precinct.draw_candidate self pst std g = Ok ((d, gap), g1) ->
  0 <= gap.
Proof.
  intros Hrate HT. rewrite draw_candidate_unfold, HT. cbv zeta.
  repeat match goal with |- context [if ?b then _ else _] => destruct b end;
    intros H; inversion H; subst;
    apply expo_nonneg; try exact Hrate; apply mt_range.
Qed.

Lemma arrivals_inv_step (self : Precinct.t) (voters : list Voter.t) (cur d gap : Q) :
  arrivals_inv self voters cur ->
  (Z.of_nat (List.length voters) + 1 <= Precinct.max_num_voters self)%Z ->
  0 <= gap ->
  cur + gap <= inject_Z (Precinct.minutes_open self) ->
  arrivals_inv self (voters ++ [Voter.init (cur + gap) d]) (cur + gap).
Proof.
  intros (Hsorted & Hall & Hcur & Hlen) Hguard Hgap Hopen.
  unfold arrivals_inv, arrival_times in *. rewrite map_app. simpl map.
  split; [|split; [|split]].
  - apply StronglySorted_snoc; [exact Hsorted|].
    eapply Forall_impl; [|exact Hall]. simpl. intros a (_ & Ha & _). lra.
  - apply Forall_app. split.
    + eapply Forall_impl; [|exact Hall]. simpl. intros a (H0 & Ha & Hm).
      repeat split; try assumption. lra.
    + constructor; [|constructor]. simpl. repeat split; try assumption; lra.
  - lra.
  - rewrite length_app. simpl. lia.
Qed.

End ArrivalTimes.

Lemma served_arrival_times (voters served : list Voter.t) :
  Forall2 (fun v v' => exists s, v' = Voter.update_startend_times v s /\
                                 Voter.arrival_time v <= s) voters served ->
  arrival_times served = arrival_times voters /\
  List.length served = List.length voters.
Proof.
  induction 1 as [|v v' voters served (s & -> & _) _ [IHa IHl]]; simpl.
  - split; reflexivity.
  - unfold arrival_times in *. simpl. rewrite IHa, IHl. split; reflexivity.
Qed.

(** C8.  For a positive arrival rate and a non-negative voter limit,
    the arrival times of the returned voters are in non-decreasing
    order, each within [0, minutes_open], and there are at most
    [max_num_voters] of them.  The pass of the loop whose clock runs
    past [minutes_open] ends the loop with the recorded voters
    unchanged: that candidate is dropped. *)
Theorem arrivals_monotone_bounded {R : RandomSource} {L : RandomSourceLaws R}
    (self : Precinct.t) (pst std : Q) (seed : Z) (g : Random.state)
    (voters : list Voter.t) (g' : Random.state) :
  0 < Precinct.arrival_rate self ->
  (0 <= Precinct.max_num_voters self)%Z ->
  Precinct.simulate self pst std seed g = Ok (voters, g') ->
  StronglySorted Qle (arrival_times voters) /\
  Forall (fun a => 0 <= a /\ a <= inject_Z (Precinct.minutes_open self))
    (arrival_times voters) /\
  (Z.of_nat (List.length voters) <= Precinct.max_num_voters self)%Z /\
  (forall fuel recorded cur g0 d gap g1,
      (Z.of_nat (List.length recorded) + 1 <= Precinct.max_num_voters self)%Z ->
      Precinct.draw_candidate self pst std g0 = Ok ((d, gap), g1) ->
      inject_Z (Precinct.minutes_open self) < cur + gap ->
      Precinct.arrivals (S fuel) self pst std recorded cur g0 = Ok (recorded, g1)).
Proof.
  intros Hrate Hmax Hsim.
  destruct (simulate_Ok_inv _ _ _ _ _ _ _ Hsim) as (arrived & b & Harr & Hall).
  destruct (assign_all_total arrived _ (init_pool_ok (Precinct.num_booths self)))
    as (served & b' & Hall' & _ & _ & _ & Hrel).
  rewrite Hall in Hall'. inversion Hall'; subst served b'.
  destruct (served_arrival_times _ _ Hrel) as [Htimes Hlen].
  assert (Hinv : exists cur, arrivals_inv self arrived cur).
  { apply (arrivals_invariant self pst std (mt seed) (arrivals_inv self))
      with (fuel := Precinct.fuel_for self) (voters := []) (cur := 0)
           (g := seeded seed) (g' := g').
    - intros vs cur d gap g0 g1 HP Hguard HT Hd Hopen.
      apply arrivals_inv_step; try assumption.
      apply (draw_candidate_gap_nonneg self pst std seed g0 g1 d gap Hrate HT Hd).
    - reflexivity.
    - unfold arrivals_inv, arrival_times. simpl.
      repeat split; try constructor; try lra; try lia.
    - exact Harr. }
  destruct Hinv as (cur & Hsorted & Hbounds & _ & Hcount).
  rewrite Htimes, Hlen.
  split; [exact Hsorted|]. split.
  { eapply Forall_impl; [|exact Hbounds]. simpl. intros a (H0 & _ & Hm). auto. }
  split; [exact Hcount|].
  intros fuel recorded cur0 g0 d gap g1 Hguard Hd Hlate.
  rewrite arrivals_step.
  apply Z.leb_le in Hguard. rewrite Hguard, Hd.
  apply Qgtb_true in Hlate. rewrite Hlate. reflexivity.
Qed.

Lemma arrivals_monotone_bounded_witness :
  exists voters g',
    Precinct.simulate (R := tenths) demo_precinct (1 # 2) 2 0 fresh = Ok (voters, g') /\
    StronglySorted Qle (arrival_times voters) /\
    Forall (fun a => 0 <= a /\ a <= inject_Z (Precinct.minutes_open demo_precinct))
      (arrival_times voters) /\
    (Z.of_nat (List.length voters) <= Precinct.max_num_voters demo_precinct)%Z.
Proof.
  destruct (Precinct.simulate (R := tenths) demo_precinct (1 # 2) 2 0 fresh)
    as [[voters g']| | |] eqn:E;
    [|vm_compute in E; discriminate ..].
  exists voters, g'. split; [reflexivity|].
  destruct (arrivals_monotone_bounded (R := tenths) (L := tenths_laws)
              demo_precinct (1 # 2) 2 0 fresh voters g')
    as (H1 & H2 & H3 & _).
  - reflexivity.
  - vm_compute. discriminate.
  - exact E.
  - auto.
Defined.

(** C8 as stated fails outside the configurations with a positive
    arrival rate and a non-negative voter limit.  At an arrival rate
    of -1/10 every gap is negative: the three voters returned arrive
    at -7, -8 and -10, a decreasing sequence below 0.  At a voter
    limit of -3 no voter is returned, and 0 exceeds -3. *)
Lemma backwards_arrivals :
  (exists voters,
      value_from (Precinct.simulate (R := tenths)
                    (Precinct.init "backwards" 1 3 1 (-1 # 10) (2 # 10)) (1 # 2) 2 0)
        fresh = Ok voters /\
      map Qred (arrival_times voters) = [-7; -8; -10] /\
      ~ StronglySorted Qle (arrival_times voters) /\
      ~ Forall (fun a => 0 <= a /\ a <= inject_Z (1 * 60)) (arrival_times voters)) /\
  (exists voters,
      value_from (Precinct.simulate (R := tenths)
                    (Precinct.init "negative limit" 1 (-3) 1 (1 # 10) (2 # 10))
                    (1 # 2) 2 0)
        fresh = Ok voters /\
      ~ (Z.of_nat (List.length voters) <= -3)%Z).
Proof.
  split.
  - eexists. split; [vm_compute; reflexivity|].
    split; [vm_compute; reflexivity|]. split.
    + intros H. apply StronglySorted_inv in H. destruct H as [_ H].
      apply Forall_inv in H. vm_compute in H. apply H. reflexivity.
    + intros H. apply Forall_inv in H. destruct H as [H _].
      vm_compute in H. apply H. reflexivity.
  - eexists. split; [vm_compute; reflexivity|]. simpl. lia.
Qed.

(** ** The draws of a candidate voter *)

(** C2, as the code has it.  A candidate takes the classification draw
    first and the gap draw last.  A split-ticket candidate takes the
    duration draw in between, three draws in all; a straight-ticket
    candidate takes no duration draw, two draws in all. *)
Theorem candidate_draws {R : RandomSource} (self : Precinct.t) (pst std : Q)
    (g : Random.state) (d gap : Q) (g' : Random.state) :
  Precinct.draw_candidate self pst std g = Ok ((d, gap), g') ->
  let T := Random.tape g in
  let n := Random.pos g in
  Random.tape g' = T /\
  ((T n <= pst /\
    d = std /\
    gap = - log (1 - T (n + 1)%nat) / Precinct.arrival_rate self /\
    Random.pos g' = (n + 2)%nat) \/
   (pst < T n /\
    d = - log (1 - T (n + 1)%nat) / Precinct.voting_duration_rate self /\
    gap = - log (1 - T (n + 2)%nat) / Precinct.arrival_rate self /\
    Random.pos g' = (n + 3)%nat)).
Proof. apply draw_candidate_cases. Qed.

Lemma candidate_draws_witness :
  exists d gap g',
    Precinct.draw_candidate (R := tenths) demo_precinct (1 # 2) 2 (seeded (R := tenths) 1) =
      Ok ((d, gap), g') /\
    Random.pos g' = 2%nat.
Proof.
  destruct (Precinct.draw_candidate (R := tenths) demo_precinct (1 # 2) 2 (seeded (R := tenths) 1))
    as [[[d gap] g']| | |] eqn:E;
    [|vm_compute in E; discriminate ..].
  exists d, gap, g'. split; [reflexivity|].
  destruct (candidate_draws (R := tenths) demo_precinct (1 # 2) 2 (seeded (R := tenths) 1) d gap g' E)
    as (_ & [(_ & _ & _ & Hp)|(Hlt & _)]).
  - exact Hp.
  - vm_compute in Hlt. discriminate.
Defined.

(** C2 as stated fails: a straight-ticket candidate takes two draws.
    With every voter straight-ticket, one candidate leaves the
    generator two variates further, and a whole day with a single
    admissible voter costs two draws. *)
Lemma straight_ticket_two_draws :
  draws_from (Precinct.draw_candidate (R := tenths) demo_precinct 1 2) (seeded (R := tenths) 0) =
    Ok 2%nat /\
  draws_from (Precinct.simulate (R := tenths)
                (Precinct.init "one" 1 1 1 (1 # 10) (2 # 10)) 1 2 0) fresh =
    Ok 2%nat /\
  2%nat <> 3%nat.
Proof.
  split; [vm_compute; reflexivity|].
  split; [vm_compute; reflexivity|discriminate].
Qed.

(** ** Routing at the two ends of [percent_straight_ticket] *)

Section Routing.
Context {R : RandomSource}.

(** At 1 every candidate is straight-ticket: a variate below 1 passes
    the test [<= 1]. *)
Lemma routing_percent_one {L : RandomSourceLaws R} (self : Precinct.t) (std : Q)
    (s : Z) (g : Random.state) (d gap : Q) (g' : Random.state) :
  Random.tape g = mt s ->
  Precinct.draw_candidate self 1 std g = Ok ((d, gap), g') ->
  d = std /\ Random.pos g' = (Random.pos g + 2)%nat.
Proof.
  intros HT Hd.
  destruct (draw_candidate_cases self 1 std g d gap g' Hd)
    as (_ & [(_ & Hstd & _ & Hp)|(Hlt & _)]); [auto|].
  exfalso. rewrite HT in Hlt.
  destruct (mt_range s (Random.pos g)) as [_ Hhi]. lra.
Qed.

(** At 0 a candidate whose classification variate is positive is
    split-ticket. *)
Lemma routing_percent_zero_positive (self : Precinct.t) (std : Q)
    (g : Random.state) (d gap : Q) (g' : Random.state) :
  0 < Random.tape g (Random.pos g) ->
  Precinct.draw_candidate self 0 std g = Ok ((d, gap), g') ->
  d = - log (1 - Random.tape g (Random.pos g + 1)%nat) /
        Precinct.voting_duration_rate self /\
  Random.pos g' = (Random.pos g + 3)%nat.
Proof.
  intros Hpos Hd.
  destruct (draw_candidate_cases self 0 std g d gap g' Hd)
    as (_ & [(Hle & _)|(_ & Hexp & _ & Hp)]); [|auto].
  exfalso. lra.
Qed.

(** At 0 a candidate whose classification variate is 0.0 passes the
    test [<= 0] and is straight-ticket all the same. *)
Lemma routing_percent_zero_zero_draw (self : Precinct.t) (std : Q)
    (g : Random.state) (d gap : Q) (g' : Random.state) :
  Random.tape g (Random.pos g) == 0 ->
  Precinct.draw_candidate self 0 std g = Ok ((d, gap), g') ->
  d = std /\ Random.pos g' = (Random.pos g + 2)%nat.
Proof.
  intros Hzero Hd.
  destruct (draw_candidate_cases self 0 std g d gap g' Hd)
    as (_ & [(_ & Hstd & _ & Hp)|(Hlt & _)]); [auto|].
  exfalso. lra.
Qed.

End Routing.

(** C4 at a classification variate of 0.0.  The source [zero_first]
    stays within [0, 1) and hands out 0.0 first.  With
    [percent_straight_ticket = 0] the first candidate gets the fixed
    [straight_ticket_duration] (2, where the exponential branch would
    give 5/2) and costs two draws, and [simulate] returns it as its
    first voter. *)
Theorem zero_percent_zero_draw_goes_straight :
  mt (RandomSource := zero_first) 0 0 == 0 /\
  (exists gap g',
      Precinct.draw_candidate (R := zero_first) demo_precinct 0 2
        (seeded (R := zero_first) 0) = Ok ((2, gap), g') /\
      Random.pos g' = 2%nat) /\
  ~ - log (RandomSource := zero_first) (1 - mt (RandomSource := zero_first) 0 1) /
      Precinct.voting_duration_rate demo_precinct == 2 /\
  (exists first rest g',
      Precinct.simulate (R := zero_first) demo_precinct 0 2 0 fresh =
        Ok (first :: rest, g') /\
      Voter.voting_duration first = 2).
Proof.
  split; [reflexivity|]. split; [|split].
  - eexists. eexists. split; vm_compute; reflexivity.
  - vm_compute. discriminate.
  - eexists. eexists. eexists. split; vm_compute; reflexivity.
Qed.

(** ** Configurations the constructor does not check *)

(** C1, as the code has it.  The constructor keeps whatever it is
    given.  [simulate] never hangs: it returns or raises
    [ZeroDivisionError].  It raises when the arrival rate is zero and
    at least one voter is admissible, and it returns whenever both
    rates are non-zero, whatever their sign, the durations and the
    number of booths. *)
Theorem configuration_outcomes {R : RandomSource} (name : string)
    (hours_open max_num_voters num_booths : Z) (arrival_rate voting_duration_rate : Q)
    (pst std : Q) (seed : Z) (g : Random.state) :
  let self := Precinct.init name hours_open max_num_voters num_booths
                arrival_rate voting_duration_rate in
  (Precinct.num_booths self = num_booths /\
   Precinct.arrival_rate self = arrival_rate /\
   Precinct.voting_duration_rate self = voting_duration_rate /\
   Precinct.minutes_open self = (hours_open * 60)%Z) /\
  ((exists voters g', Precinct.simulate self pst std seed g = Ok (voters, g')) \/
   Precinct.simulate self pst std seed g = Raise ZeroDivisionError) /\
  (arrival_rate == 0 -> (1 <= max_num_voters)%Z ->
   Precinct.simulate self pst std seed g = Raise ZeroDivisionError) /\
  (~ arrival_rate == 0 -> ~ voting_duration_rate == 0 ->
   exists voters g', Precinct.simulate self pst std seed g = Ok (voters, g')).
Proof.
  intros self.
  destruct (fuel_for_enough self) as [Hnz Hfuel].
  split; [repeat split|]. split; [|split].
  - destruct (arrivals_outcome self pst std _ [] 0 (seeded seed) Hnz Hfuel)
      as [(arrived & g1 & Ha)|Ha].
    + left. destruct (simulate_of_arrivals self pst std seed g arrived g1 Ha)
        as (served & b & _ & Hsim). eauto.
    + right. rewrite simulate_unfold, Ha. reflexivity.
  - intros Hzero Hmax. rewrite simulate_unfold.
    unfold Precinct.fuel_for.
    rewrite (arrivals_zero_arrival_rate self pst std _ 0 (seeded seed) Hzero Hmax).
    reflexivity.
  - intros Har Hvr.
    destruct (arrivals_returns self pst std _ Har Hvr [] 0 (seeded seed) Hnz Hfuel)
      as (arrived & g1 & Ha).
    destruct (simulate_of_arrivals self pst std seed g arrived g1 Ha)
      as (served & b & _ & Hsim). eauto.
Qed.

Lemma configuration_outcomes_witness :
  Precinct.simulate (R := tenths) (Precinct.init "zero-rate" 1 10 1 0 (2 # 10))
    (1 # 2) 2 0 fresh = Raise ZeroDivisionError /\
  exists voters g',
    Precinct.simulate (R := tenths) (Precinct.init "negative" 1 10 0 (-1 # 10) (-2 # 10))
      (1 # 2) (-2) 0 fresh = Ok (voters, g').
Proof.
  split.
  - apply (configuration_outcomes (R := tenths) "zero-rate" 1 10 1 0 (2 # 10)
             (1 # 2) 2 0 fresh).
    + reflexivity.
    + lia.
  - apply (configuration_outcomes (R := tenths) "negative" 1 10 0 (-1 # 10) (-2 # 10)
             (1 # 2) (-2) 0 fresh).
    + vm_compute. discriminate.
    + vm_compute. discriminate.
Defined.

(** C1 as stated fails: none of these configurations is rejected.
    Zero booths, a negative arrival rate, a negative voting-duration
    rate and a negative straight-ticket duration are all simulated,
    and each run returns voters. *)
Lemma invalid_configurations_simulated :
  (exists voters,
      value_from (Precinct.simulate (R := tenths)
                    (Precinct.init "no booths" 1 2 0 (1 # 10) (2 # 10)) (1 # 2) 2 0)
        fresh = Ok voters /\ List.length voters = 2%nat) /\
  (exists voters,
      value_from (Precinct.simulate (R := tenths)
                    (Precinct.init "negative arrival rate" 1 2 1 (-1 # 10) (2 # 10))
                    (1 # 2) 2 0)
        fresh = Ok voters /\ List.length voters = 2%nat) /\
  (exists voters,
      value_from (Precinct.simulate (R := tenths)
                    (Precinct.init "negative duration rate" 1 2 1 (1 # 10) (-2 # 10))
                    (1 # 2) 2 0)
        fresh = Ok voters /\ List.length voters = 2%nat) /\
  (exists voters,
      value_from (Precinct.simulate (R := tenths)
                    (Precinct.init "negative duration" 1 2 1 (1 # 10) (2 # 10))
                    (1 # 2) (-2) 0)
        fresh = Ok voters /\ List.length voters = 2%nat).
Proof.
  repeat split; eexists; split; vm_compute; reflexivity.
Qed.

(** ** Sorting *)

Lemma sort_insert_perm (x : Q) (l : list Q) : Permutation (sort_insert x l) (x :: l).
Proof.
  induction l as [|y l IH]; simpl; [apply Permutation_refl|].
  destruct (Qle_bool x y); [apply Permutation_refl|].
  eapply perm_trans; [apply perm_skip, IH | apply perm_swap].
Qed.

Lemma py_sort_perm (l : list Q) : Permutation (py_sort l) l.
Proof.
  induction l as [|x l IH]; simpl; [constructor|].
  eapply perm_trans; [apply sort_insert_perm | apply perm_skip, IH].
Qed.

Lemma sort_insert_sorted (x : Q) (l : list Q) :
  StronglySorted Qle l -> StronglySorted Qle (sort_insert x l).
Proof.
  induction 1 as [|y l Hl IH Hy]; simpl.
  - repeat constructor.
  - destruct (Qle_bool x y) eqn:E.
    + apply Qle_bool_iff in E. constructor; [constructor; assumption|].
      constructor; [exact E|].
      eapply Forall_impl; [|exact Hy]. intros z Hz. eapply Qle_trans; eassumption.
    + assert (Hyx : y <= x).
      { apply Qlt_le_weak, Qnot_le_lt. intros Hle.
        apply Qle_bool_iff in Hle. congruence. }
      constructor; [exact IH|].
      eapply Permutation_Forall; [apply Permutation_sym, sort_insert_perm|].
      constructor; assumption.
Qed.

Lemma py_sort_sorted (l : list Q) : StronglySorted Qle (py_sort l).
Proof.
  induction l as [|x l IH]; simpl; [constructor|].
  apply sort_insert_sorted, IH.
Qed.

Lemma py_index_in_range {A : Type} (l : list A) (i : Z) :
  (0 <= i < Z.of_nat (List.length l))%Z ->
  exists a, nth_error l (Z.to_nat i) = Some a /\ py_index l i = Ok a.
Proof.
  intros [Hlo Hhi]. unfold py_index.
  assert (E1 : (i <? 0)%Z = false) by (apply Z.ltb_ge; lia). rewrite E1.
  assert (E2 : (Z.of_nat (List.length l) <=? i)%Z = false) by (apply Z.leb_gt; lia).
  rewrite E1, E2. simpl.
  destruct (nth_error l (Z.to_nat i)) as [a|] eqn:E; [eauto|].
  apply nth_error_None in E. lia.
Qed.

(** ** The trial loop *)

Lemma wait_times_of_served (voters : list Voter.t) :
  Forall causal voters ->
  forall acc, wait_times_of voters acc = Ok (acc ++ map waited voters).
Proof.
  induction 1 as [|v voters (s & e & Hs & _) _ IH]; intros acc; simpl.
  - now rewrite app_nil_r.
  - unfold wait_time, waited. rewrite Hs. simpl.
    rewrite IH, <- app_assoc. reflexivity.
Qed.

Lemma average_nonempty (l : list Q) :
  l <> [] -> average l = Ok (py_sum l / inject_Z (Z.of_nat (List.length l))).
Proof. destruct l; [congruence | reflexivity]. Qed.

Section EstimatorFacts.
Context {R : RandomSource}.

Lemma trials_step (n : nat) (p : Precinct.t) (pst std : Q) (seed : Z)
    (acc : list Q) (g : Random.state) :
  trials (S n) p pst std seed acc g =
  match Precinct.simulate p pst std seed g with
  | Ok (voters, g1) =>
    match wait_times_of voters [] with
    | Ok wait_times =>
      match average wait_times with
      | Ok avg => trials n p pst std (seed + 1)%Z (acc ++ [avg]) g1
      | Raise e => Raise e
      | Blocked => Blocked
      | OutOfFuel => OutOfFuel
      end
    | Raise e => Raise e
    | Blocked => Blocked
    | OutOfFuel => OutOfFuel
    end
  | Raise e => Raise e
  | Blocked => Blocked
  | OutOfFuel => OutOfFuel
  end.
Proof.
  cbn [trials]. unfold Random.bind, Random.lift.
  destruct (Precinct.simulate p pst std seed g) as [[voters g1]| | |]; try reflexivity.
  destruct (wait_times_of voters []) as [wts| | |]; try reflexivity. simpl.
  destruct (average wts); reflexivity.
Qed.

(** The value of the loop does not depend on the generator state it
    is entered with: every trial reseeds. *)
Lemma trials_reseed (n : nat) (p : Precinct.t) (pst std : Q) (seed : Z)
    (acc : list Q) (g1 g2 : Random.state) :
  value_from (trials n p pst std seed acc) g1 =
  value_from (trials n p pst std seed acc) g2.
Proof.
  destruct n as [|n]; [reflexivity|].
  unfold value_from. rewrite !trials_step, (simulate_reseeds p pst std seed g1 g2).
  reflexivity.
Qed.

Lemma find_avg_wait_time_value (precinct : PrecinctDict.t) (pst : Q)
    (ntrials seed : Z) (g : Random.state) :
  value_from (find_avg_wait_time precinct pst ntrials seed) g =
  value_from (find_avg_wait_time precinct pst ntrials seed) fresh.
Proof.
  pose proof (trials_reseed (Z.to_nat ntrials) (precinct_of precinct) pst
                (PrecinctDict.straight_ticket_duration precinct) seed [] g fresh) as H.
  unfold value_from, find_avg_wait_time, Random.bind, Random.lift in *.
  destruct (trials _ _ _ _ _ _ g) as [[a1 s1]| | |];
    destruct (trials _ _ _ _ _ _ fresh) as [[a2 s2]| | |];
    simpl in H; try discriminate; try reflexivity.
  - inversion H; subst. destruct (sorted_middle a2 ntrials); reflexivity.
  - inversion H; subst. reflexivity.
Qed.

(** A day on which nobody voted stops the loop with
    [ZeroDivisionError], and so does any failure before it. *)
Lemma trials_empty_day (n : nat) (p : Precinct.t) (pst std : Q) :
  forall (i : nat) (seed : Z) (acc : list Q) (g : Random.state),
    (i < n)%nat ->
    value_from (Precinct.simulate p pst std (seed + Z.of_nat i)) fresh = Ok [] ->
    trials n p pst std seed acc g = Raise ZeroDivisionError.
Proof.
  induction n as [|n IH]; intros i seed acc g Hi Hempty; [lia|].
  rewrite trials_step.
  destruct (Precinct.simulate p pst std seed g) as [[voters g1]| | |] eqn:Hsim.
  - pose proof (simulate_causal _ _ _ _ _ _ _ Hsim) as Hc.
    rewrite (wait_times_of_served _ Hc). simpl app.
    destruct i as [|i].
    + replace (seed + Z.of_nat 0)%Z with seed in Hempty by lia.
      unfold value_from in Hempty.
      rewrite (simulate_reseeds p pst std seed fresh g), Hsim in Hempty.
      simpl in Hempty. inversion Hempty; subst. reflexivity.
    + destruct voters as [|v voters]; [reflexivity|].
      rewrite average_nonempty by discriminate.
      apply (IH i); [lia|].
      replace (seed + 1 + Z.of_nat i)%Z with (seed + Z.of_nat (S i))%Z by lia.
      exact Hempty.
  - destruct (simulate_outcome p pst std seed g) as [(vs & g1 & Hok)|Hzd];
      rewrite Hsim in *; [discriminate|]. inversion Hzd; subst. reflexivity.
  - destruct (simulate_outcome p pst std seed g) as [(vs & g1 & Hok)|Hzd];
      rewrite Hsim in *; discriminate.
  - destruct (simulate_outcome p pst std seed g) as [(vs & g1 & Hok)|Hzd];
      rewrite Hsim in *; discriminate.
Qed.

End EstimatorFacts.

(** ** find_avg_wait_time *)

Section EstimatorResults.
Context {R : RandomSource}.

Lemma find_avg_empty_day (precinct : PrecinctDict.t) (pst : Q) (ntrials seed : Z)
    (g : Random.state) (i : nat) :
  (i < Z.to_nat ntrials)%nat ->
  value_from (Precinct.simulate (precinct_of precinct) pst
                (PrecinctDict.straight_ticket_duration precinct) (seed + Z.of_nat i))
    fresh = Ok [] ->
  find_avg_wait_time precinct pst ntrials seed g = Raise ZeroDivisionError.
Proof.
  intros Hi Hempty. unfold find_avg_wait_time, Random.bind.
  rewrite (trials_empty_day _ _ _ _ i seed [] g Hi Hempty). reflexivity.
Qed.

(** When every day has voters the loop collects the mean wait of each
    day, in the order of the seeds. *)
Lemma trials_collect (p : Precinct.t) (pst std : Q) (runs : list (list Voter.t)) :
  forall (seed : Z) (acc : list Q) (g : Random.state),
    (forall i voters, nth_error runs i = Some voters ->
       voters <> [] /\
       value_from (Precinct.simulate p pst std (seed + Z.of_nat i)) fresh = Ok voters) ->
    exists g',
      trials (List.length runs) p pst std seed acc g =
        Ok (acc ++ map mean_wait runs, g').
Proof.
  induction runs as [|voters runs IH]; intros seed acc g Hruns.
  - exists g. simpl. unfold Random.ret. now rewrite app_nil_r.
  - destruct (Hruns O voters eq_refl) as [Hne Hval].
    replace (seed + Z.of_nat 0)%Z with seed in Hval by lia.
    unfold value_from in Hval. rewrite (simulate_reseeds p pst std seed fresh g) in Hval.
    destruct (Precinct.simulate p pst std seed g) as [[vs g1]| | |] eqn:Hsim;
      try discriminate.
    simpl in Hval. inversion Hval; subst vs.
    pose proof (simulate_causal _ _ _ _ _ _ _ Hsim) as Hc.
    simpl List.length. rewrite trials_step, Hsim.
    rewrite (wait_times_of_served _ Hc). simpl app.
    rewrite average_nonempty.
    2:{ destruct voters; [congruence | discriminate]. }
    rewrite length_map.
    destruct (IH (seed + 1)%Z
                 (acc ++ [py_sum (map waited voters) /
                          inject_Z (Z.of_nat (List.length voters))]) g1)
      as (g' & Hrest).
    { intros i vs Hi. destruct (Hruns (S i) vs Hi) as [Hn Hv]. split; [exact Hn|].
      replace (seed + 1 + Z.of_nat i)%Z with (seed + Z.of_nat (S i))%Z by lia.
      exact Hv. }
    exists g'. rewrite Hrest. simpl map. rewrite <- app_assoc. reflexivity.
Qed.

Lemma half_in_range (n : Z) : (1 <= n)%Z -> (0 <= n / 2 < n)%Z.
Proof.
  intros Hn. split; [apply Z.div_pos; lia|].
  apply Z.div_lt_upper_bound; lia.
Qed.

End EstimatorResults.

(** C3 at a precinct that lets no voter in, whatever the generator, and
    at one whose first voter would arrive after closing time: the
    mean of the empty day is [sum([]) / len([])], and the call ends
    in Python's own [ZeroDivisionError]. *)
Theorem empty_trial_divides_by_zero :
  (forall (R : RandomSource) (g : Random.state),
      find_avg_wait_time no_voters_dict (1 # 2) 1 0 g = Raise ZeroDivisionError) /\
  value_from (Precinct.simulate (R := tenths) (precinct_of rare_voters_dict)
                (1 # 2) 2 0) fresh = Ok [] /\
  find_avg_wait_time (R := tenths) rare_voters_dict (1 # 2) 1 0 fresh =
    Raise ZeroDivisionError.
Proof.
  split; [|split].
  - intros R g. apply (find_avg_empty_day no_voters_dict (1 # 2) 1 0 g 0).
    + simpl. lia.
    + reflexivity.
  - vm_compute. reflexivity.
  - vm_compute. reflexivity.
Qed.

(** C6.  With [ntrials >= 1] and voters on every day, the call returns
    the entry at index [ntrials // 2] of the sorted list of the daily
    mean waits, the days being those of the seeds [initial_seed],
    [initial_seed + 1], ..., [initial_seed + ntrials - 1].  On the
    averages 1, 3, 2, 5, 4 with five trials that entry is 3. *)
Theorem median_of_trial_means {R : RandomSource} (precinct : PrecinctDict.t)
    (pst : Q) (ntrials initial_seed : Z) (runs : list (list Voter.t))
    (g : Random.state) :
  (1 <= ntrials)%Z ->
  List.length runs = Z.to_nat ntrials ->
  (forall i voters, nth_error runs i = Some voters ->
     voters <> [] /\
     value_from (Precinct.simulate (precinct_of precinct) pst
                   (PrecinctDict.straight_ticket_duration precinct)
                   (initial_seed + Z.of_nat i)) fresh = Ok voters) ->
  (exists sorted m g',
      find_avg_wait_time precinct pst ntrials initial_seed g = Ok (m, g') /\
      Permutation sorted (map mean_wait runs) /\
      StronglySorted Qle sorted /\
      nth_error sorted (Z.to_nat (ntrials / 2)) = Some m) /\
  sorted_middle [1; 3; 2; 5; 4] 5 = Ok 3.
Proof.
  intros Hn Hlen Hruns. split; [|reflexivity].
  destruct (trials_collect (precinct_of precinct) pst
              (PrecinctDict.straight_ticket_duration precinct) runs
              initial_seed [] g Hruns) as (g' & Htrials).
  rewrite Hlen in Htrials. simpl app in Htrials.
  destruct (py_index_in_range (py_sort (map mean_wait runs)) (ntrials / 2)) as (m & Hnth & Hidx).
  { rewrite (Permutation_length (py_sort_perm _)), length_map, Hlen.
    pose proof (half_in_range ntrials Hn). lia. }
  exists (py_sort (map mean_wait runs)), m, g'.
  split; [|split; [apply py_sort_perm | split; [apply py_sort_sorted | exact Hnth]]].
  unfold find_avg_wait_time, Random.bind. rewrite Htrials.
  unfold Random.lift, sorted_middle. rewrite Hidx. reflexivity.
Qed.

Lemma median_of_trial_means_witness :
  exists sorted m g',
    find_avg_wait_time (R := tenths) demo_dict (1 # 2) 3 0 fresh = Ok (m, g') /\
    Permutation sorted (map mean_wait demo_runs) /\
    StronglySorted Qle sorted /\
    nth_error sorted 1 = Some m.
Proof.
  apply (median_of_trial_means (R := tenths) demo_dict (1 # 2) 3 0 demo_runs fresh).
  - lia.
  - reflexivity.
  - intros i voters Hi.
    destruct i as [|[|[|i]]]; simpl in Hi; [| | |destruct i; discriminate];
      injection Hi as <-; (split; [discriminate | vm_compute; reflexivity]).
Defined.

(** ** find_percent_split_ticket *)

Lemma sweep_eq :
  sweep = [(0, 10); (1, 9); (2, 8); (3, 7); (4, 6); (5, 5);
           (6, 4); (7, 3); (8, 2); (9, 1); (10, 0)]%Z.
Proof. reflexivity. Qed.

Lemma sweep_nth (j : nat) (sp st : Z) :
  nth_error sweep j = Some (sp, st) ->
  sp = Z.of_nat j /\ st = (10 - Z.of_nat j)%Z /\ (j <= 10)%nat.
Proof.
  rewrite sweep_eq.
  do 11 (destruct j as [|j];
         [simpl; intros H; inversion H; subst; repeat split; lia|]).
  simpl. destruct j; discriminate.
Qed.

Section SearchFacts.
Context {R : RandomSource}.

Lemma search_step (sp st : Z) (rest : list (Z * Z)) (precinct : PrecinctDict.t)
    (target : Q) (ntrials seed : Z) (g : Random.state) :
  search ((sp, st) :: rest) precinct target ntrials seed g =
  match find_avg_wait_time precinct (inject_Z st / 10) ntrials seed g with
  | Ok (avg_wait, g1) =>
    if Qgtb avg_wait target then Ok (Some (inject_Z sp / 10, Some avg_wait), g1)
    else if (sp =? 10)%Z then Ok (Some (1, None), g1)
    else search rest precinct target ntrials seed g1
  | Raise e => Raise e
  | Blocked => Blocked
  | OutOfFuel => OutOfFuel
  end.
Proof.
  cbn [search]. unfold Random.bind.
  destruct (find_avg_wait_time _ _ _ _ g) as [[w g1]| | |]; try reflexivity.
  destruct (Qgtb w target); [reflexivity|].
  destruct (sp =? 10)%Z; reflexivity.
Qed.

(** The estimate at a sweep point is the same from any generator
    state. *)
Lemma find_avg_of_value (precinct : PrecinctDict.t) (st ntrials seed : Z) (w : Q)
    (g : Random.state) :
  avg_wait_at precinct st ntrials seed = Ok w ->
  exists g1,
    find_avg_wait_time precinct (inject_Z st / 10) ntrials seed g = Ok (w, g1).
Proof.
  unfold avg_wait_at. rewrite <- (find_avg_wait_time_value _ _ _ _ g).
  unfold value_from.
  destruct (find_avg_wait_time _ _ _ _ g) as [[w' g1]| | |]; simpl; try discriminate.
  intros H; inversion H; subst. eauto.
Qed.

(** Sweep points that do not exceed the target, none of them the
    last, are passed over. *)
Lemma search_skip (pre : list (Z * Z)) (precinct : PrecinctDict.t)
    (target : Q) (ntrials seed : Z) :
  (forall sp st, In (sp, st) pre ->
     sp <> 10%Z /\
     exists wj, avg_wait_at precinct st ntrials seed = Ok wj /\ wj <= target) ->
  forall rest g,
  exists g1,
    search (pre ++ rest) precinct target ntrials seed g =
    search rest precinct target ntrials seed g1.
Proof.
  induction pre as [|[sp st] pre IH]; intros Hpre rest g; [exists g; reflexivity|].
  destruct (Hpre sp st (or_introl eq_refl)) as (Hsp & wj & Hwj & Hle).
  destruct (find_avg_of_value precinct st ntrials seed wj g Hwj) as (g1 & Hrun).
  simpl app. rewrite search_step, Hrun.
  apply Qgtb_false in Hle. rewrite Hle.
  apply Z.eqb_neq in Hsp. rewrite Hsp.
  apply IH. intros sp' st' Hin. apply Hpre. right. exact Hin.
Qed.

End SearchFacts.



(** * Further properties of the assignment phase *)

(** ** The pool, entry by entry *)

Lemma heappush_perm (h : list Q) (x : Q) :
  Permutation (PriorityQueue.heappush h x) (x :: h).
Proof.
  induction h as [|y h IH]; simpl; [apply Permutation_refl|].
  destruct (Qle_bool x y); [apply Permutation_refl|].
  eapply perm_trans; [apply perm_skip, IH | apply perm_swap].
Qed.

Lemma heappush_sorted (h : list Q) (x : Q) :
  StronglySorted Qle h -> StronglySorted Qle (PriorityQueue.heappush h x).
Proof.
  induction 1 as [|y h Hh IH Hy]; simpl.
  - repeat constructor.
  - destruct (Qle_bool x y) eqn:E.
    + apply Qle_bool_iff in E. constructor; [constructor; assumption|].
      constructor; [exact E|].
      eapply Forall_impl; [|exact Hy]. intros z Hz. eapply Qle_trans; eassumption.
    + assert (Hyx : y <= x).
      { apply Qlt_le_weak, Qnot_le_lt. intros Hle.
        apply Qle_bool_iff in Hle. congruence. }
      constructor; [exact IH|].
      eapply Permutation_Forall; [apply Permutation_sym, heappush_perm|].
      constructor; assumption.
Qed.

(** The two ways through the body of the [for] loop, with the pool
    that results. *)
Lemma assign_cases (b : VotingBooths.t) (v : Voter.t) :
  pool_ok b ->
  let a := Voter.arrival_time v in
  let d := Voter.voting_duration v in
  let q := PriorityQueue.queue (VotingBooths.booths b) in
  let mk := pool (VotingBooths.num_booths b)
                 (PriorityQueue.maxsize (VotingBooths.booths b)) in
  (VotingBooths.full b = false /\
   Precinct.assign b v =
     Ok (Voter.update_startend_times v a, mk (PriorityQueue.heappush q (a + d)))) \/
  (VotingBooths.full b = true /\
   exists m rest,
     q = m :: rest /\
     Precinct.assign b v =
       Ok (Voter.update_startend_times v (py_max a m),
           mk (PriorityQueue.heappush rest (py_max a m + d)))).
Proof.
  intros [Hn Hsz] a d q mk.
  destruct (VotingBooths.full b) eqn:Hf.
  - right. split; [reflexivity|].
    pose proof Hf as Hf'. apply full_spec in Hf'; [|exact Hn].
    destruct Hf' as [Hpos Hge].
    unfold VotingBooths.size in *. subst q.
    destruct (PriorityQueue.queue (VotingBooths.booths b)) as [|m rest] eqn:Eq.
    { simpl in Hge. lia. }
    exists m, rest. split; [reflexivity|].
    unfold Precinct.assign. rewrite Hf. simpl negb. cbv iota.
    unfold VotingBooths.get, PriorityQueue.get. rewrite Eq. simpl bindR.
    rewrite put_end_time_update.
    unfold VotingBooths.put, PriorityQueue.put, PriorityQueue.qsize. simpl.
    assert (E : ((0 <? PriorityQueue.maxsize (VotingBooths.booths b)) &&
                 (PriorityQueue.maxsize (VotingBooths.booths b) <=?
                  Z.of_nat (List.length rest)))%Z = false).
    { apply andb_false_iff. right. apply Z.leb_gt.
      simpl in Hge. destruct Hsz as [Hsz|Hsz]; simpl in Hsz; lia. }
    rewrite E. reflexivity.
  - left. split; [reflexivity|].
    unfold Precinct.assign. rewrite Hf. simpl negb. cbv iota.
    rewrite put_end_time_update.
    unfold VotingBooths.put, PriorityQueue.put.
    unfold VotingBooths.full, PriorityQueue.full in Hf. rewrite Hf. reflexivity.
Qed.

Lemma end_times_app (xs ys : list Voter.t) :
  end_times (xs ++ ys) = end_times xs ++ end_times ys.
Proof. unfold end_times. apply flat_map_app. Qed.

Lemma end_times_update (v : Voter.t) (s : Q) :
  end_times [Voter.update_startend_times v s] = [s + Voter.voting_duration v].
Proof. reflexivity. Qed.

Lemma init_pool_inv (N : Z) : (1 <= N)%Z -> pool_inv N [] (VotingBooths.init N).
Proof.
  intros HN. unfold pool_inv, VotingBooths.init, VotingBooths.size. simpl.
  repeat split; try lia; try constructor.
  exists []. simpl. repeat split; auto.
Qed.

Lemma pool_inv_ok (N : Z) (hist : list Voter.t) (b : VotingBooths.t) :
  pool_inv N hist b -> pool_ok b.
Proof.
  intros (Hn & Hm & Hsz & _). unfold pool_ok. split; [congruence|]. right. lia.
Qed.

(** Number of entries of [l] strictly above [t]. *)
Lemma count_above_le (t : Q) (l : list Q) :
  (List.length (filter (fun e => Qgtb e t) l) <= List.length l)%nat.
Proof. apply filter_length_le. Qed.

Lemma count_above_none (t : Q) (l : list Q) :
  Forall (fun e => e <= t) l -> filter (fun e => Qgtb e t) l = [].
Proof.
  induction 1 as [|e l He _ IH]; simpl; [reflexivity|].
  apply Qgtb_false in He. rewrite He. exact IH.
Qed.

Lemma in_service_end_times (t : Q) (hist : list Voter.t) :
  in_service t hist = List.length (filter (fun e => Qgtb e t) (end_times hist)).
Proof.
  unfold in_service, end_times, still_voting.
  induction hist as [|u hist IH]; simpl; [reflexivity|].
  destruct (Voter.end_time u) as [e|]; simpl.
  - destruct (Qgtb e t); simpl; rewrite IH; reflexivity.
  - exact IH.
Qed.

Lemma count_above_perm (t : Q) (l l' : list Q) :
  Permutation l l' ->
  List.length (filter (fun e => Qgtb e t) l) =
  List.length (filter (fun e => Qgtb e t) l').
Proof.
  induction 1 as [|x l l' _ IH|x y l|l l' l'' _ IH1 _ IH2]; simpl.
  - reflexivity.
  - destruct (Qgtb x t); simpl; rewrite IH; reflexivity.
  - destruct (Qgtb x t), (Qgtb y t); reflexivity.
  - congruence.
Qed.

(** ** One more voter keeps the pool invariant *)

Lemma filter_app_length (t : Q) (xs ys : list Q) :
  List.length (filter (fun e => Qgtb e t) (xs ++ ys)) =
  (List.length (filter (fun e => Qgtb e t) xs) +
   List.length (filter (fun e => Qgtb e t) ys))%nat.
Proof. rewrite filter_app, length_app. reflexivity. Qed.

Lemma pool_inv_step (N : Z) (hist : list Voter.t) (b : VotingBooths.t)
    (v v' : Voter.t) (b' : VotingBooths.t) :
  (1 <= N)%Z ->
  pool_inv N hist b ->
  0 <= Voter.voting_duration v ->
  Precinct.assign b v = Ok (v', b') ->
  pool_inv N (hist ++ [v']) b' /\
  exists s,
    v' = Voter.update_startend_times v s /\
    (Z.of_nat (in_service s hist) < N)%Z.
Proof.
  intros HN Hinv Hd Hassign.
  pose proof (pool_inv_ok _ _ _ Hinv) as Hok.
  destruct Hinv as (Hn & Hm & Hsz & Hsorted & gone & Hperm & Hgone & Hle).
  unfold VotingBooths.size in *.
  destruct (assign_cases b v Hok) as [(Hf & Ha)|(Hf & m & rest & Hq & Ha)];
    rewrite Ha in Hassign; inversion Hassign; subst v' b'; clear Hassign Ha.
  - (* a booth is free *)
    assert (Hlt : (Z.of_nat (List.length (PriorityQueue.queue (VotingBooths.booths b))) < N)%Z).
    { destruct (Z_lt_le_dec
                  (Z.of_nat (List.length (PriorityQueue.queue (VotingBooths.booths b)))) N)
        as [H|H]; [exact H|].
      exfalso. assert (VotingBooths.full b = true); [|congruence].
      apply full_spec; [congruence|]. unfold VotingBooths.size. lia. }
    specialize (Hgone Hlt). subst gone. rewrite app_nil_r in Hperm.
    split.
    + unfold pool_inv, pool, VotingBooths.size. simpl.
      rewrite heappush_length.
      split; [exact Hn|]. split; [exact Hm|]. split; [lia|].
      split; [apply heappush_sorted, Hsorted|].
      exists []. rewrite app_nil_r, end_times_app, end_times_update.
      split; [|split; [reflexivity | constructor]].
      eapply perm_trans; [apply heappush_perm|].
      eapply perm_trans; [|apply Permutation_cons_append].
      apply perm_skip, Hperm.
    + exists (Voter.arrival_time v). split; [reflexivity|].
      rewrite in_service_end_times, <- (count_above_perm _ _ _ Hperm).
      pose proof (count_above_le (Voter.arrival_time v)
                    (PriorityQueue.queue (VotingBooths.booths b))). lia.
  - (* every booth is taken *)
    rewrite Hq in *. simpl List.length in *.
    pose proof Hf as Hf'. apply full_spec in Hf'; [|congruence].
    destruct Hf' as [_ Hge]. unfold VotingBooths.size in Hge.
    rewrite Hq in Hge. simpl List.length in Hge.
    set (s := py_max (Voter.arrival_time v) m) in *.
    assert (Hms : m <= s) by apply py_max_ge_second.
    inversion Hsorted as [|m' rest' Hrest Hmrest]; subst m' rest'.
    assert (Hgm : Forall (fun x => x <= m) gone).
    { eapply Forall_impl; [|exact Hle]. simpl. intros x Hx.
      inversion Hx; assumption. }
    split.
    + unfold pool_inv, pool, VotingBooths.size. simpl.
      rewrite heappush_length.
      split; [exact Hn|]. split; [exact Hm|]. split; [lia|].
      split; [apply heappush_sorted, Hrest|].
      exists (m :: gone). rewrite end_times_app, end_times_update.
      split; [|split].
      * eapply perm_trans;
          [apply Permutation_app_tail, heappush_perm|].
        simpl app.
        eapply perm_trans; [|apply Permutation_cons_append].
        apply perm_skip.
        eapply perm_trans; [apply Permutation_sym, Permutation_middle|].
        exact Hperm.
      * intros Hlt. exfalso. lia.
      * assert (Hall : forall x, x <= m ->
                  Forall (fun y => x <= y)
                    (PriorityQueue.heappush rest (s + Voter.voting_duration v))).
        { intros x Hx.
          eapply Permutation_Forall; [apply Permutation_sym, heappush_perm|].
          constructor; [lra|].
          eapply Forall_impl; [|exact Hmrest]. simpl. intros y Hy. lra. }
        constructor; [apply Hall, Qle_refl|].
        apply Forall_forall. intros x Hx. apply Hall.
        rewrite Forall_forall in Hgm. apply Hgm, Hx.
    + exists s. split; [reflexivity|].
      rewrite in_service_end_times, <- (count_above_perm _ _ _ Hperm).
      simpl app. simpl filter.
      assert (E : Qgtb m s = false) by (apply Qgtb_false; exact Hms).
      rewrite E, filter_app_length.
      rewrite (count_above_none s gone).
      2:{ eapply Forall_impl; [|exact Hgm]. simpl. intros x Hx. lra. }
      simpl List.length.
      pose proof (count_above_le s rest). lia.
Qed.

(** The invariant along the whole loop: every voter served finds
    fewer than [N] earlier voters still in a booth. *)
Lemma assign_all_capacity (N : Z) (voters : list Voter.t) :
  (1 <= N)%Z ->
  Forall (fun v => 0 <= Voter.voting_duration v) voters ->
  forall hist b served b',
    pool_inv N hist b ->
    Precinct.assign_all b voters = Ok (served, b') ->
    forall before v after,
      served = before ++ v :: after ->
      exists s, Voter.start_time v = Some s /\
                (Z.of_nat (in_service s (hist ++ before)) < N)%Z.
Proof.
  intros HN Hdur. induction Hdur as [|v0 voters Hd0 _ IH];
    intros hist b served b' Hinv Hall before v after Hsplit.
  - simpl in Hall. inversion Hall; subst. destruct before; discriminate.
  - simpl in Hall. inv_bind Hall. destruct a as [v0' b1].
    inv_bind Hk. destruct a as [rest' b2].
    injection Hk0 as Hserved Hb'. rewrite Hsplit in Hserved.
    destruct (pool_inv_step N hist b v0 v0' b1 HN Hinv Hd0 Hc)
      as (Hinv1 & s & Hv0' & Hcount).
    destruct before as [|u before]; simpl in Hserved;
      injection Hserved as Hhead Htail; subst.
    + exists s. split; [reflexivity|]. rewrite app_nil_r. exact Hcount.
    + destruct (IH (hist ++ [Voter.update_startend_times v0 s]) b1 _ b' Hinv1 Hc0
                   before v after eq_refl) as (s' & Hs' & Hcount').
      exists s'. split; [exact Hs'|].
      rewrite <- app_assoc in Hcount'. exact Hcount'.
Qed.

(** ** First come, first served *)

Lemma pool_full (n ms : Z) (q : list Q) :
  VotingBooths.full (pool n ms q) =
  ((0 <? ms) && (ms <=? Z.of_nat (List.length q)))%Z.
Proof. reflexivity. Qed.

Lemma assign_pool_ok (b : VotingBooths.t) (v v' : Voter.t) (b' : VotingBooths.t) :
  pool_ok b -> Precinct.assign b v = Ok (v', b') -> pool_ok b'.
Proof.
  intros Hok Hassign.
  destruct (assign_total b v Hok) as (s & b0 & Ha & _ & Hok' & _).
  rewrite Hassign in Ha. inversion Ha; subst. exact Hok'.
Qed.

Lemma fifo_step (b : VotingBooths.t) (t a : Q) (v v' : Voter.t) (b' : VotingBooths.t) :
  pool_ok b ->
  StronglySorted Qle (PriorityQueue.queue (VotingBooths.booths b)) ->
  fifo_inv b t a ->
  a <= Voter.arrival_time v ->
  0 <= Voter.voting_duration v ->
  Precinct.assign b v = Ok (v', b') ->
  exists s,
    v' = Voter.update_startend_times v s /\
    t <= s /\
    pool_ok b' /\
    StronglySorted Qle (PriorityQueue.queue (VotingBooths.booths b')) /\
    fifo_inv b' s (Voter.arrival_time v).
Proof.
  intros Hok Hsorted [Hfree Hheld] Ha Hd Hassign.
  pose proof (assign_pool_ok b v v' b' Hok Hassign) as Hok'.
  destruct (assign_cases b v Hok) as [(Hf & Hc)|(Hf & m & rest & Hq & Hc)];
    rewrite Hc in Hassign; inversion Hassign; subst v' b'; clear Hassign.
  - exists (Voter.arrival_time v). split; [reflexivity|].
    specialize (Hfree Hf). split; [lra|]. split; [exact Hok'|].
    split; [apply heappush_sorted, Hsorted|].
    split; [intros _; apply Qle_refl|].
    apply Forall_forall. intros x _. left. apply Qle_refl.
  - rewrite Hq in *.
    inversion Hsorted as [|m' rest' Hrest Hmrest]; subst m' rest'.
    inversion Hheld as [|m' rest' Hm Hheld']; subst m' rest'.
    set (s := py_max (Voter.arrival_time v) m) in *.
    pose proof (py_max_ge_first (Voter.arrival_time v) m) as Hs1.
    pose proof (py_max_ge_second (Voter.arrival_time v) m) as Hs2.
    fold s in Hs1, Hs2.
    exists s. split; [reflexivity|].
    split; [destruct Hm; lra|]. split; [exact Hok'|].
    split; [apply heappush_sorted, Hrest|].
    split.
    + intros Hnf. exfalso.
      rewrite pool_full, heappush_length in Hnf.
      unfold VotingBooths.full, PriorityQueue.full, PriorityQueue.qsize in Hf.
      rewrite Hq in Hf. simpl List.length in Hf. congruence.
    + simpl PriorityQueue.queue.
      eapply Permutation_Forall; [apply Permutation_sym, heappush_perm|].
      constructor; [right; lra|].
      assert (Hcase : s = Voter.arrival_time v \/ s = m).
      { unfold s, py_max. destruct (Qgtb m (Voter.arrival_time v)); auto. }
      eapply Forall_impl; [|exact Hmrest]. simpl. intros x Hx.
      destruct Hcase as [E|E]; rewrite E; [left; apply Qle_refl | right; exact Hx].
Qed.

Lemma assign_all_fifo (voters : list Voter.t) :
  forall b t a served b',
    pool_ok b ->
    StronglySorted Qle (PriorityQueue.queue (VotingBooths.booths b)) ->
    fifo_inv b t a ->
    Forall (fun v => 0 <= Voter.voting_duration v) voters ->
    StronglySorted Qle (arrival_times voters) ->
    Forall (fun x => a <= x) (arrival_times voters) ->
    Precinct.assign_all b voters = Ok (served, b') ->
    exists starts,
      map Voter.start_time served = map Some starts /\
      Forall (fun s => t <= s) starts /\
      StronglySorted Qle starts.
Proof.
  induction voters as [|v voters IH];
    intros b t a served b' Hok Hq Hfifo Hdur Hsorted Hlow Hall; simpl in Hall.
  - inversion Hall; subst. exists []. repeat split; constructor.
  - inv_bind Hall. destruct a0 as [v' b1]. inv_bind Hk. destruct a0 as [rest' b2].
    inversion Hk0; subst served b'.
    inversion Hdur as [|? ? Hd Hdur']; subst.
    unfold arrival_times in Hsorted, Hlow. simpl in Hsorted, Hlow.
    inversion Hsorted as [|? ? Hsorted' Hnext]; subst.
    inversion Hlow as [|? ? Hav _]; subst.
    destruct (fifo_step b t a v v' b1 Hok Hq Hfifo Hav Hd Hc)
      as (s & Hv' & Hts & Hok1 & Hq1 & Hfifo1).
    destruct (IH b1 s (Voter.arrival_time v) rest' b2 Hok1 Hq1 Hfifo1 Hdur'
                 Hsorted' Hnext Hc0) as (starts & Hmap & Hge & Hss).
    exists (s :: starts). subst v'. simpl. rewrite Hmap.
    split; [reflexivity|]. split.
    + constructor; [exact Hts|].
      eapply Forall_impl; [|exact Hge]. simpl. intros x Hx. lra.
    + constructor; [exact Hss | exact Hge].
Qed.

(** ** Free booths *)

Lemma assign_all_free_booths (voters : list Voter.t) :
  forall b served b',
    pool_ok b ->
    Precinct.assign_all b voters = Ok (served, b') ->
    forall i v,
      nth_error served i = Some v ->
      (Z.of_nat (VotingBooths.size b) + Z.of_nat i < VotingBooths.num_booths b)%Z ->
      served_on_arrival v.
Proof.
  induction voters as [|v0 voters IH]; intros b served b' Hok Hall i v Hnth Hfree;
    simpl in Hall.
  - inversion Hall; subst. destruct i; discriminate.
  - inv_bind Hall. destruct a as [v0' b1]. inv_bind Hk. destruct a as [rest' b2].
    inversion Hk0; subst served b'.
    assert (Hf : VotingBooths.full b = false).
    { destruct (VotingBooths.full b) eqn:E; [|reflexivity].
      destruct Hok as [Hn _]. apply full_spec in E; [|exact Hn]. lia. }
    destruct (assign_not_full b v0 Hf) as (b1' & Ha & Hn1 & Hm1 & Hs1).
    rewrite Hc in Ha. inversion Ha; subst v0' b1'. clear Ha.
    destruct i as [|i]; simpl in Hnth.
    + inversion Hnth; subst. apply start_on_arrival_served.
    + apply (IH b1 rest' b2) with (i := i); try assumption.
      * apply (assign_pool_ok b v0 _ b1 Hok Hc).
      * rewrite Hn1, Hs1. lia.
Qed.

(** ** Where a start time comes from *)

Lemma assign_all_start_source (voters : list Voter.t) :
  forall hist b served b',
    pool_ok b ->
    incl (PriorityQueue.queue (VotingBooths.booths b)) (end_times hist) ->
    Precinct.assign_all b voters = Ok (served, b') ->
    forall before v after,
      served = before ++ v :: after ->
      exists s, Voter.start_time v = Some s /\
                (s = Voter.arrival_time v \/ In s (end_times (hist ++ before))).
Proof.
  induction voters as [|v0 voters IH];
    intros hist b served b' Hok Hincl Hall before v after Hsplit; simpl in Hall.
  - inversion Hall; subst. destruct before; discriminate.
  - inv_bind Hall. destruct a as [v0' b1]. inv_bind Hk. destruct a as [rest' b2].
    injection Hk0 as Hserved Hb'. rewrite Hsplit in Hserved.
    assert (Hok1 : pool_ok b1).
    { apply (assign_pool_ok b v0 v0' b1 Hok Hc). }
    assert (Hstep : exists s,
               v0' = Voter.update_startend_times v0 s /\
               (s = Voter.arrival_time v0 \/ In s (end_times hist)) /\
               incl (PriorityQueue.queue (VotingBooths.booths b1))
                    (end_times (hist ++ [v0']))).
    { destruct (assign_cases b v0 Hok) as [(Hf & Ha)|(Hf & m & rest & Hq & Ha)];
        rewrite Ha in Hc; inversion Hc; subst v0' b1; clear Hc.
      - exists (Voter.arrival_time v0). split; [reflexivity|]. split; [auto|].
        rewrite end_times_app, end_times_update. simpl PriorityQueue.queue.
        intros x Hx.
        apply (Permutation_in _ (heappush_perm _ _)) in Hx.
        apply in_or_app. destruct Hx as [<-|Hx]; [right; left; reflexivity|].
        left. apply Hincl, Hx.
      - rewrite Hq in Hincl.
        exists (py_max (Voter.arrival_time v0) m). split; [reflexivity|]. split.
        + unfold py_max. destruct (Qgtb m (Voter.arrival_time v0)); [|auto].
          right. apply Hincl. left. reflexivity.
        + rewrite end_times_app, end_times_update. simpl PriorityQueue.queue.
          intros x Hx.
          apply (Permutation_in _ (heappush_perm _ _)) in Hx.
          apply in_or_app. destruct Hx as [<-|Hx]; [right; left; reflexivity|].
          left. apply Hincl. right. exact Hx. }
    destruct Hstep as (s & Hv0' & Hsrc & Hincl1).
    destruct before as [|u before]; simpl in Hserved;
      injection Hserved as Hhead Htail; subst.
    + exists s. split; [reflexivity|]. rewrite app_nil_r. exact Hsrc.
    + destruct (IH (hist ++ [Voter.update_startend_times v0 s]) b1 _ b' Hok1 Hincl1 Hc0
                   before v after eq_refl) as (s' & Hs' & Hsrc').
      exists s'. split; [exact Hs'|]. rewrite <- app_assoc in Hsrc'. exact Hsrc'.
Qed.

(** ** One booth *)

Lemma assign_all_single (voters : list Voter.t) :
  forall e served b',
    Precinct.assign_all (pool 1 1 [e]) voters = Ok (served, b') ->
    lindley e served.
Proof.
  induction voters as [|v voters IH]; intros e served b' Hall;
    cbn [Precinct.assign_all] in Hall.
  - inversion Hall; subst. exact I.
  - inv_bind Hall. destruct a as [v' b1]. inv_bind Hk. destruct a as [rest' b2].
    inversion Hk0; subst served b'.
    assert (Hok : pool_ok (pool 1 1 [e])).
    { unfold pool_ok, pool, VotingBooths.size. simpl. split; [reflexivity | right; lia]. }
    destruct (assign_cases (pool 1 1 [e]) v Hok)
      as [(Hf & Ha)|(Hf & m & rest & Hq & Ha)]; [discriminate|].
    simpl in Hq. inversion Hq; subst m rest.
    rewrite Ha in Hc. inversion Hc; subst v' b1. clear Hc.
    simpl. split; [reflexivity|].
    eexists. split; [reflexivity|].
    apply (IH _ _ _ Hc0).
Qed.

Lemma lindley_adjacent (before : list Voter.t) :
  forall e u v after,
    lindley e (before ++ u :: v :: after) ->
    exists e_u, Voter.end_time u = Some e_u /\
                Voter.start_time v = Some (py_max (Voter.arrival_time v) e_u).
Proof.
  induction before as [|w before IH]; intros e u v after H; simpl in H.
  - destruct H as (_ & e' & He' & Hv & _). eauto.
  - destruct H as (_ & e' & _ & Hrest). apply (IH _ _ _ _ Hrest).
Qed.

(** ** What the arrival phase hands to the assignment phase *)

Section ArrivedVoters.
Context {R : RandomSource} {L : RandomSourceLaws R}.

Lemma draw_candidate_duration_nonneg (self : Precinct.t) (pst std : Q) (s : Z)
    (g g1 : Random.state) (d gap : Q) :
  0 < Precinct.voting_duration_rate self ->
  0 <= std ->
  Random.tape g = mt s ->
  Precinct.draw_candidate self pst std g = Ok ((d, gap), g1) ->
  0 <= d.
Proof.
  intros Hrate Hstd HT Hd.
  destruct (draw_candidate_cases self pst std g d gap g1 Hd)
    as (_ & [(_ & -> & _)|(_ & -> & _)]); [exact Hstd|].
  rewrite HT. apply expo_nonneg; try exact Hrate; apply mt_range.
Qed.

Lemma arrived_durations_nonneg (self : Precinct.t) (pst std : Q) (seed : Z)
    (arrived : list Voter.t) (g' : Random.state) :
  0 < Precinct.voting_duration_rate self ->
  0 <= std ->
  Precinct.arrivals (Precinct.fuel_for self) self pst std [] 0 (seeded seed) =
    Ok (arrived, g') ->
  Forall (fun v => 0 <= Voter.voting_duration v) arrived.
Proof.
  intros Hrate Hstd Harr.
  destruct (arrivals_invariant self pst std (mt seed)
              (fun vs _ => Forall (fun v => 0 <= Voter.voting_duration v) vs))
    with (fuel := Precinct.fuel_for self) (voters := @nil Voter.t) (cur := 0)
         (g := seeded seed) (res := arrived) (g' := g') as (cur & H);
    try assumption; try reflexivity; try constructor.
  intros vs cur d gap g0 g1 HP _ HT Hd _.
  apply Forall_app. split; [exact HP|]. constructor; [|constructor]. simpl.
  apply (draw_candidate_duration_nonneg self pst std seed g0 g1 d gap Hrate Hstd HT Hd).
Qed.

Lemma arrived_sorted (self : Precinct.t) (pst std : Q) (seed : Z)
    (arrived : list Voter.t) (g' : Random.state) :
  0 < Precinct.arrival_rate self ->
  Precinct.arrivals (Precinct.fuel_for self) self pst std [] 0 (seeded seed) =
    Ok (arrived, g') ->
  StronglySorted Qle (arrival_times arrived).
Proof.
  intros Hrate Harr.
  destruct (arrivals_invariant self pst std (mt seed)
              (fun vs cur => StronglySorted Qle (arrival_times vs) /\
                             Forall (fun a => a <= cur) (arrival_times vs)))
    with (fuel := Precinct.fuel_for self) (voters := @nil Voter.t) (cur := 0)
         (g := seeded seed) (res := arrived) (g' := g') as (cur & H & _);
    try assumption; try reflexivity.
  - intros vs cur d gap g0 g1 [Hs Hb] _ HT Hd _.
    pose proof (draw_candidate_gap_nonneg self pst std seed g0 g1 d gap Hrate HT Hd)
      as Hgap.
    unfold arrival_times. rewrite map_app. simpl map. split.
    + apply StronglySorted_snoc; [exact Hs|].
      eapply Forall_impl; [|exact Hb]. simpl. intros a Ha. lra.
    + apply Forall_app. split.
      * eapply Forall_impl; [|exact Hb]. simpl. intros a Ha. lra.
      * constructor; [apply Qle_refl | constructor].
  - split; constructor.
Qed.

End ArrivedVoters.

Lemma arrived_count {R : RandomSource} (self : Precinct.t) (pst std : Q) (seed : Z)
    (arrived : list Voter.t) (g' : Random.state) :
  Precinct.arrivals (Precinct.fuel_for self) self pst std [] 0 (seeded seed) =
    Ok (arrived, g') ->
  (Z.of_nat (List.length arrived) <= Z.max 0 (Precinct.max_num_voters self))%Z.
Proof.
  intros Harr.
  destruct (arrivals_invariant self pst std (mt seed)
              (fun vs _ => (Z.of_nat (List.length vs) <=
                            Z.max 0 (Precinct.max_num_voters self))%Z))
    with (fuel := Precinct.fuel_for self) (voters := @nil Voter.t) (cur := 0)
         (g := seeded seed) (res := arrived) (g' := g') as (cur & H);
    try assumption; try reflexivity.
  - intros vs cur d gap g0 g1 HP Hguard _ _ _. rewrite length_app. simpl. lia.
  - simpl. lia.
Qed.

(** * Further properties of [Precinct.simulate] *)

(** X1.  With at least one booth, a positive voting-duration rate and
    a non-negative straight-ticket duration, every returned voter
    starts at a time when fewer than [num_booths] of the voters before
    are still in a booth: the booths are never overbooked. *)
Theorem booths_never_overbooked {R : RandomSource} {L : RandomSourceLaws R}
    (self : Precinct.t) (pst std : Q) (seed : Z) (g : Random.state)
    (voters : list Voter.t) (g' : Random.state) :
  (1 <= Precinct.num_booths self)%Z ->
  0 < Precinct.voting_duration_rate self ->
  0 <= std ->
  Precinct.simulate self pst std seed g = Ok (voters, g') ->
  forall before v after,
    voters = before ++ v :: after ->
    exists s, Voter.start_time v = Some s /\
              (Z.of_nat (in_service s before) < Precinct.num_booths self)%Z.
Proof.
  intros HN Hrate Hstd Hsim before v after Hsplit.
  destruct (simulate_Ok_inv _ _ _ _ _ _ _ Hsim) as (arrived & b & Harr & Hall).
  apply (assign_all_capacity (Precinct.num_booths self) arrived HN
           (arrived_durations_nonneg self pst std seed arrived g' Hrate Hstd Harr)
           [] _ voters b (init_pool_inv _ HN) Hall before v after Hsplit).
Qed.

Lemma booths_never_overbooked_witness :
  exists voters g',
    Precinct.simulate (R := tenths) demo_precinct (1 # 2) 2 0 fresh = Ok (voters, g') /\
    forall before v after,
      voters = before ++ v :: after ->
      exists s, Voter.start_time v = Some s /\
                (Z.of_nat (in_service s before) < Precinct.num_booths demo_precinct)%Z.
Proof.
  destruct (Precinct.simulate (R := tenths) demo_precinct (1 # 2) 2 0 fresh)
    as [[voters g']| | |] eqn:E;
    [|vm_compute in E; discriminate ..].
  exists voters, g'. split; [reflexivity|].
  apply (booths_never_overbooked (R := tenths) (L := tenths_laws)
           demo_precinct (1 # 2) 2 0 fresh voters g').
  - vm_compute. discriminate.
  - reflexivity.
  - vm_compute. discriminate.
  - exact E.
Defined.

(** X2.  For positive rates and a non-negative straight-ticket
    duration, the start times of the returned voters are all set and
    in non-decreasing order: voters enter the booths in the order in
    which they arrived. *)
Theorem first_come_first_served {R : RandomSource} {L : RandomSourceLaws R}
    (self : Precinct.t) (pst std : Q) (seed : Z) (g : Random.state)
    (voters : list Voter.t) (g' : Random.state) :
  0 < Precinct.arrival_rate self ->
  0 < Precinct.voting_duration_rate self ->
  0 <= std ->
  Precinct.simulate self pst std seed g = Ok (voters, g') ->
  exists starts,
    map Voter.start_time voters = map Some starts /\
    StronglySorted Qle starts.
Proof.
  intros Har Hvr Hstd Hsim.
  destruct (simulate_Ok_inv _ _ _ _ _ _ _ Hsim) as (arrived & b & Harr & Hall).
  pose proof (arrived_durations_nonneg self pst std seed arrived g' Hvr Hstd Harr) as Hdur.
  pose proof (arrived_sorted self pst std seed arrived g' Har Harr) as Hsorted.
  destruct arrived as [|v0 arrived].
  { simpl in Hall. inversion Hall; subst. exists []. split; constructor. }
  destruct (assign_all_fifo (v0 :: arrived) (VotingBooths.init (Precinct.num_booths self))
              (Voter.arrival_time v0) (Voter.arrival_time v0) voters b)
    as (starts & Hmap & _ & Hss); try assumption.
  - apply init_pool_ok.
  - constructor.
  - split; [intros _; apply Qle_refl | constructor].
  - unfold arrival_times in *. simpl in *.
    inversion Hsorted; subst. constructor; [apply Qle_refl | assumption].
  - exists starts. auto.
Qed.

Lemma first_come_first_served_witness :
  exists voters g' starts,
    Precinct.simulate (R := tenths) demo_precinct (1 # 2) 2 0 fresh = Ok (voters, g') /\
    map Voter.start_time voters = map Some starts /\
    StronglySorted Qle starts.
Proof.
  destruct (Precinct.simulate (R := tenths) demo_precinct (1 # 2) 2 0 fresh)
    as [[voters g']| | |] eqn:E;
    [|vm_compute in E; discriminate ..].
  destruct (first_come_first_served (R := tenths) (L := tenths_laws)
              demo_precinct (1 # 2) 2 0 fresh voters g') as (starts & H1 & H2).
  - reflexivity.
  - reflexivity.
  - vm_compute. discriminate.
  - exact E.
  - exists voters, g', starts. auto.
Defined.

(** X3.  The first [num_booths] voters of the returned list start at
    their own arrival time. *)
Theorem first_voters_do_not_wait {R : RandomSource}
    (self : Precinct.t) (pst std : Q) (seed : Z) (g : Random.state)
    (voters : list Voter.t) (g' : Random.state) (i : nat) (v : Voter.t) :
  Precinct.simulate self pst std seed g = Ok (voters, g') ->
  nth_error voters i = Some v ->
  (Z.of_nat i < Precinct.num_booths self)%Z ->
  served_on_arrival v.
Proof.
  intros Hsim Hnth Hi.
  destruct (simulate_Ok_inv _ _ _ _ _ _ _ Hsim) as (arrived & b & _ & Hall).
  apply (assign_all_free_booths arrived _ voters b
           (init_pool_ok (Precinct.num_booths self)) Hall i v Hnth).
  unfold VotingBooths.size. simpl. lia.
Qed.

Lemma first_voters_do_not_wait_witness :
  exists voters g' v,
    Precinct.simulate (R := tenths) (Precinct.init "two" 1 10 2 (1 # 10) (2 # 10))
      (1 # 2) 2 0 fresh = Ok (voters, g') /\
    nth_error voters 1 = Some v /\
    served_on_arrival v.
Proof.
  destruct (Precinct.simulate (R := tenths) (Precinct.init "two" 1 10 2 (1 # 10) (2 # 10))
              (1 # 2) 2 0 fresh)
    as [[voters g']| | |] eqn:E;
    [|vm_compute in E; discriminate ..].
  destruct (nth_error voters 1) as [v|] eqn:Hnth.
  - exists voters, g', v. split; [reflexivity|]. split; [exact Hnth|].
    apply (first_voters_do_not_wait (R := tenths)
             (Precinct.init "two" 1 10 2 (1 # 10) (2 # 10)) (1 # 2) 2 0 fresh
             voters g' 1 v E Hnth).
    reflexivity.
  - exfalso. vm_compute in E. inversion E; subst. discriminate.
Defined.

(** X4.  When there are at least as many booths as admissible voters,
    every returned voter starts on arrival and waits zero minutes. *)
Theorem enough_booths_no_wait {R : RandomSource}
    (self : Precinct.t) (pst std : Q) (seed : Z) (g : Random.state)
    (voters : list Voter.t) (g' : Random.state) :
  (Precinct.max_num_voters self <= Precinct.num_booths self)%Z ->
  Precinct.simulate self pst std seed g = Ok (voters, g') ->
  Forall served_on_arrival voters.
Proof.
  intros Hmax Hsim.
  destruct (simulate_Ok_inv _ _ _ _ _ _ _ Hsim) as (arrived & b & Harr & Hall).
  pose proof (arrived_count self pst std seed arrived g' Harr) as Hcount.
  destruct (assign_all_total arrived _ (init_pool_ok (Precinct.num_booths self)))
    as (served & b0 & Hall' & _ & _ & _ & Hrel).
  rewrite Hall in Hall'. inversion Hall'; subst served b0.
  destruct (served_arrival_times _ _ Hrel) as [_ Hlen].
  apply Forall_forall. intros v Hin.
  apply In_nth_error in Hin. destruct Hin as (i & Hnth).
  assert (Hi : (i < List.length voters)%nat) by (apply nth_error_Some; congruence).
  apply (assign_all_free_booths arrived _ voters b
           (init_pool_ok (Precinct.num_booths self)) Hall i v Hnth).
  unfold VotingBooths.size. simpl. lia.
Qed.

Lemma enough_booths_no_wait_witness :
  exists voters g',
    Precinct.simulate (R := tenths) (Precinct.init "roomy" 1 3 3 (1 # 10) (2 # 10))
      (1 # 2) 2 0 fresh = Ok (voters, g') /\
    Forall served_on_arrival voters.
Proof.
  destruct (Precinct.simulate (R := tenths) (Precinct.init "roomy" 1 3 3 (1 # 10) (2 # 10))
              (1 # 2) 2 0 fresh)
    as [[voters g']| | |] eqn:E;
    [|vm_compute in E; discriminate ..].
  exists voters, g'. split; [reflexivity|].
  apply (enough_booths_no_wait (R := tenths)
           (Precinct.init "roomy" 1 3 3 (1 # 10) (2 # 10)) (1 # 2) 2 0 fresh voters g').
  - simpl. lia.
  - exact E.
Defined.

(** X5.  The start time of a returned voter is the voter's own arrival
    time or the departure time of some voter earlier in the list: a
    voter who waits enters a booth at the moment another one leaves. *)
Theorem start_is_arrival_or_departure {R : RandomSource}
    (self : Precinct.t) (pst std : Q) (seed : Z) (g : Random.state)
    (voters : list Voter.t) (g' : Random.state)
    (before : list Voter.t) (v : Voter.t) (after : list Voter.t) :
  Precinct.simulate self pst std seed g = Ok (voters, g') ->
  voters = before ++ v :: after ->
  exists s, Voter.start_time v = Some s /\
            (s = Voter.arrival_time v \/ In s (end_times before)).
Proof.
  intros Hsim Hsplit.
  destruct (simulate_Ok_inv _ _ _ _ _ _ _ Hsim) as (arrived & b & _ & Hall).
  apply (assign_all_start_source arrived [] _ voters b
           (init_pool_ok (Precinct.num_booths self))
           (fun x (H : In x []) => match H with end) Hall before v after Hsplit).
Qed.

Lemma start_is_arrival_or_departure_witness :
  exists voters g' u v after s,
    Precinct.simulate (R := tenths) demo_precinct (1 # 2) 2 0 fresh = Ok (voters, g') /\
    voters = [u] ++ v :: after /\
    Voter.start_time v = Some s /\
    (s = Voter.arrival_time v \/ In s (end_times [u])).
Proof.
  destruct (Precinct.simulate (R := tenths) demo_precinct (1 # 2) 2 0 fresh)
    as [[voters g']| | |] eqn:E;
    [|vm_compute in E; discriminate ..].
  destruct voters as [|u [|v after]];
    [exfalso; vm_compute in E; discriminate ..|].
  destruct (start_is_arrival_or_departure (R := tenths) demo_precinct (1 # 2) 2 0 fresh
              (u :: v :: after) g' [u] v after E eq_refl) as (s & Hs & Hsrc).
  exists (u :: v :: after), g', u, v, after, s. auto.
Defined.

(** X6.  With exactly one booth, each returned voter after the first
    starts at the later of the voter's arrival and the departure of
    the voter just before. *)
Theorem single_booth_recursion {R : RandomSource}
    (self : Precinct.t) (pst std : Q) (seed : Z) (g : Random.state)
    (voters : list Voter.t) (g' : Random.state)
    (before : list Voter.t) (u v : Voter.t) (after : list Voter.t) :
  Precinct.num_booths self = 1%Z ->
  Precinct.simulate self pst std seed g = Ok (voters, g') ->
  voters = before ++ u :: v :: after ->
  exists e_u,
    Voter.end_time u = Some e_u /\
    Voter.start_time v = Some (py_max (Voter.arrival_time v) e_u).
Proof.
  intros Hone Hsim Hsplit.
  destruct (simulate_Ok_inv _ _ _ _ _ _ _ Hsim) as (arrived & b & _ & Hall).
  rewrite Hone in Hall.
  destruct arrived as [|v0 arrived]; cbn [Precinct.assign_all] in Hall.
  { inversion Hall; subst. destruct before; discriminate. }
  inv_bind Hall. destruct a as [v0' b1]. inv_bind Hk. destruct a as [rest' b2].
  injection Hk0 as Hserved Hb. rewrite Hsplit in Hserved.
  destruct (assign_cases (VotingBooths.init 1) v0 (init_pool_ok 1))
    as [(_ & Ha)|(Hf & _)]; [|discriminate].
  rewrite Ha in Hc. inversion Hc; subst v0' b1. clear Hc.
  simpl in Hc0.
  pose proof (assign_all_single arrived _ rest' b2 Hc0) as Hchain.
  destruct before as [|w before]; simpl in Hserved;
    injection Hserved as Hhead Htail; subst.
  - simpl in Hchain. destruct Hchain as (Hv & _). eexists. split; [reflexivity|exact Hv].
  - apply (lindley_adjacent before _ u v after Hchain).
Qed.

Lemma single_booth_recursion_witness :
  exists voters g' u v after e_u,
    Precinct.simulate (R := tenths) demo_precinct (1 # 2) 2 0 fresh = Ok (voters, g') /\
    voters = [] ++ u :: v :: after /\
    Voter.end_time u = Some e_u /\
    Voter.start_time v = Some (py_max (Voter.arrival_time v) e_u).
Proof.
  destruct (Precinct.simulate (R := tenths) demo_precinct (1 # 2) 2 0 fresh)
    as [[voters g']| | |] eqn:E;
    [|vm_compute in E; discriminate ..].
  destruct voters as [|u [|v after]];
    [exfalso; vm_compute in E; discriminate ..|].
  destruct (single_booth_recursion (R := tenths) demo_precinct (1 # 2) 2 0 fresh
              (u :: v :: after) g' [] u v after eq_refl E eq_refl) as (e_u & He & Hs).
  exists (u :: v :: after), g', u, v, after, e_u. auto.
Defined.

(** X7.  For a positive voting-duration rate and a non-negative
    straight-ticket duration, every returned voter has a non-negative
    voting duration and leaves no earlier than the voter starts. *)
Theorem voters_leave_after_start {R : RandomSource} {L : RandomSourceLaws R}
    (self : Precinct.t) (pst std : Q) (seed : Z) (g : Random.state)
    (voters : list Voter.t) (g' : Random.state) :
  0 < Precinct.voting_duration_rate self ->
  0 <= std ->
  Precinct.simulate self pst std seed g = Ok (voters, g') ->
  Forall (fun v =>
            0 <= Voter.voting_duration v /\
            exists s e, Voter.start_time v = Some s /\ Voter.end_time v = Some e /\
                        s <= e) voters.
Proof.
  intros Hrate Hstd Hsim.
  destruct (simulate_Ok_inv _ _ _ _ _ _ _ Hsim) as (arrived & b & Harr & Hall).
  pose proof (arrived_durations_nonneg self pst std seed arrived g' Hrate Hstd Harr) as Hdur.
  destruct (assign_all_total arrived _ (init_pool_ok (Precinct.num_booths self)))
    as (served & b0 & Hall' & _ & _ & _ & Hrel).
  rewrite Hall in Hall'. inversion Hall'; subst served b0. clear Hall' Hall Harr Hsim.
  revert Hdur. induction Hrel as [|v v' arrived voters (s & -> & _) _ IH];
    intros Hdur; constructor.
  - inversion Hdur; subst. simpl. split; [assumption|].
    exists s, (s + Voter.voting_duration v). repeat split; try reflexivity. lra.
  - inversion Hdur; subst. apply IH; assumption.
Qed.

Lemma voters_leave_after_start_witness :
  exists voters g',
    Precinct.simulate (R := tenths) demo_precinct (1 # 2) 2 0 fresh = Ok (voters, g') /\
    Forall (fun v =>
              0 <= Voter.voting_duration v /\
              exists s e, Voter.start_time v = Some s /\ Voter.end_time v = Some e /\
                          s <= e) voters.
Proof.
  destruct (Precinct.simulate (R := tenths) demo_precinct (1 # 2) 2 0 fresh)
    as [[voters g']| | |] eqn:E;
    [|vm_compute in E; discriminate ..].
  exists voters, g'. split; [reflexivity|].
  apply (voters_leave_after_start (R := tenths) (L := tenths_laws)
           demo_precinct (1 # 2) 2 0 fresh voters g').
  - reflexivity.
  - vm_compute. discriminate.
  - exact E.
Defined.

(** * Further properties of [find_avg_wait_time] *)

Lemma py_index_nil {A : Type} (i : Z) : py_index (@nil A) i = Raise IndexError.
Proof.
  unfold py_index. simpl List.length.
  destruct (i <? 0)%Z eqn:E.
  - apply Z.ltb_lt in E.
    assert (E1 : (i + Z.of_nat 0 <? 0)%Z = true) by (apply Z.ltb_lt; lia).
    rewrite E1. reflexivity.
  - apply Z.ltb_ge in E.
    assert (E1 : (Z.of_nat 0 <=? i)%Z = true) by (apply Z.leb_le; lia).
    rewrite E1, orb_true_r. reflexivity.
Qed.

Lemma py_sum_nonneg (l : list Q) :
  Forall (fun w => 0 <= w) l -> forall acc, 0 <= acc -> 0 <= fold_left Qplus l acc.
Proof.
  induction 1 as [|w l Hw _ IH]; intros acc Hacc; simpl; [exact Hacc|].
  apply IH. lra.
Qed.

Lemma average_nonneg (l : list Q) (avg : Q) :
  Forall (fun w => 0 <= w) l -> average l = Ok avg -> 0 <= avg.
Proof.
  intros Hl Havg. destruct l as [|w l]; [discriminate|].
  simpl in Havg. inversion Havg; subst. clear Havg.
  apply Qle_shift_div_l.
  - unfold Qlt, inject_Z. simpl. lia.
  - rewrite Qmult_0_l. apply (py_sum_nonneg (w :: l) Hl 0). apply Qle_refl.
Qed.

Lemma waited_nonneg (voters : list Voter.t) :
  Forall causal voters -> Forall (fun w => 0 <= w) (map waited voters).
Proof.
  induction 1 as [|v voters (s & e & Hs & _ & Hle & _) _ IH]; simpl; constructor.
  - unfold waited. rewrite Hs. lra.
  - exact IH.
Qed.

Section EstimatorOutcomes.
Context {R : RandomSource}.

(** The trial loop returns one non-negative average per pass, or a
    division by zero stops it. *)
Lemma trials_outcome (n : nat) (p : Precinct.t) (pst std : Q) :
  forall (seed : Z) (acc : list Q) (g : Random.state),
    Forall (fun w => 0 <= w) acc ->
    (exists l g',
        trials n p pst std seed acc g = Ok (l, g') /\
        Forall (fun w => 0 <= w) l /\
        List.length l = (List.length acc + n)%nat) \/
    trials n p pst std seed acc g = Raise ZeroDivisionError.
Proof.
  induction n as [|n IH]; intros seed acc g Hacc.
  - left. exists acc, g. simpl. unfold Random.ret.
    split; [reflexivity|]. split; [exact Hacc | lia].
  - rewrite trials_step.
    destruct (simulate_outcome p pst std seed g) as [(voters & g1 & Hsim)|Hsim];
      rewrite Hsim; [|right; reflexivity].
    pose proof (simulate_causal _ _ _ _ _ _ _ Hsim) as Hc.
    rewrite (wait_times_of_served _ Hc). simpl app.
    destruct (average (map waited voters)) as [avg| | |] eqn:Havg.
    + destruct (IH (seed + 1)%Z (acc ++ [avg]) g1) as [(l & g' & Hrun & Hl & Hlen)|Hrun].
      * apply Forall_app. split; [exact Hacc|]. constructor; [|constructor].
        apply (average_nonneg _ _ (waited_nonneg _ Hc) Havg).
      * left. exists l, g'. split; [exact Hrun|]. split; [exact Hl|].
        rewrite Hlen, length_app. simpl. lia.
      * right. exact Hrun.
    + right. destruct (map waited voters); simpl in Havg; inversion Havg. reflexivity.
    + destruct (map waited voters); discriminate.
    + destruct (map waited voters); discriminate.
Qed.

(** With no admissible voter the day is empty, nothing is drawn and
    nothing can fail. *)
Lemma simulate_empty_day (self : Precinct.t) (pst std : Q) (seed : Z)
    (g : Random.state) :
  (Precinct.max_num_voters self <= 0)%Z ->
  Precinct.simulate self pst std seed g = Ok ([], seeded seed).
Proof.
  intros Hmax. rewrite simulate_unfold. unfold Precinct.fuel_for.
  rewrite arrivals_step. simpl List.length.
  assert (E : (Z.of_nat 0 + 1 <=? Precinct.max_num_voters self)%Z = false)
    by (apply Z.leb_gt; lia).
  rewrite E. reflexivity.
Qed.

End EstimatorOutcomes.

(** X8.  Called with [ntrials <= 0], [find_avg_wait_time] runs no trial
    and indexes the empty list of averages: it raises [IndexError]. *)
Theorem no_trials_index_error {R : RandomSource} (precinct : PrecinctDict.t)
    (pst : Q) (ntrials seed : Z) (g : Random.state) :
  (ntrials <= 0)%Z ->
  find_avg_wait_time precinct pst ntrials seed g = Raise IndexError.
Proof.
  intros Hn. unfold find_avg_wait_time, Random.bind.
  replace (Z.to_nat ntrials) with O by lia. simpl trials. unfold Random.ret.
  unfold Random.lift, sorted_middle. simpl py_sort. rewrite py_index_nil. reflexivity.
Qed.

Lemma no_trials_index_error_witness :
  find_avg_wait_time (R := tenths) demo_dict (1 # 2) 0 0 fresh = Raise IndexError.
Proof.
  apply (no_trials_index_error (R := tenths) demo_dict (1 # 2) 0 0 fresh). lia.
Defined.

(** X9.  Called with [ntrials >= 1], [find_avg_wait_time] either
    returns a value, which is then not negative, or raises
    [ZeroDivisionError]; it raises nothing else and does not hang. *)
Theorem estimate_outcome {R : RandomSource} (precinct : PrecinctDict.t)
    (pst : Q) (ntrials seed : Z) (g : Random.state) :
  (1 <= ntrials)%Z ->
  (exists m g', find_avg_wait_time precinct pst ntrials seed g = Ok (m, g') /\ 0 <= m) \/
  find_avg_wait_time precinct pst ntrials seed g = Raise ZeroDivisionError.
Proof.
  intros Hn. unfold find_avg_wait_time, Random.bind.
  destruct (trials_outcome (Z.to_nat ntrials) (precinct_of precinct) pst
              (PrecinctDict.straight_ticket_duration precinct) seed [] g)
    as [(l & g' & Hrun & Hl & Hlen)|Hrun]; [constructor| |right; rewrite Hrun; reflexivity].
  rewrite Hrun. left.
  destruct (py_index_in_range (py_sort l) (ntrials / 2)) as (m & Hnth & Hidx).
  { rewrite (Permutation_length (py_sort_perm _)), Hlen. simpl List.length.
    pose proof (half_in_range ntrials Hn). lia. }
  exists m, g'. unfold Random.lift, sorted_middle. rewrite Hidx. simpl.
  split; [reflexivity|].
  apply nth_error_In in Hnth.
  apply (Permutation_in _ (py_sort_perm l)) in Hnth.
  rewrite Forall_forall in Hl. apply Hl, Hnth.
Qed.

Lemma estimate_outcome_witness :
  (exists m g',
      find_avg_wait_time (R := tenths) demo_dict (1 # 2) 3 0 fresh = Ok (m, g') /\
      0 <= m) \/
  find_avg_wait_time (R := tenths) demo_dict (1 # 2) 3 0 fresh = Raise ZeroDivisionError.
Proof.
  apply (estimate_outcome (R := tenths) demo_dict (1 # 2) 3 0 fresh). lia.
Defined.

(** X10.  A precinct with [num_voters <= 0] has empty days: [simulate]
    returns the empty list straight after seeding, without a single
    draw and whatever the rates, and [find_avg_wait_time] with at
    least one trial raises [ZeroDivisionError]. *)
Theorem empty_precinct {R : RandomSource} (precinct : PrecinctDict.t)
    (pst : Q) (ntrials seed : Z) (g : Random.state) :
  (PrecinctDict.num_voters precinct <= 0)%Z ->
  Precinct.simulate (precinct_of precinct) pst
    (PrecinctDict.straight_ticket_duration precinct) seed g = Ok ([], seeded seed) /\
  ((1 <= ntrials)%Z ->
   find_avg_wait_time precinct pst ntrials seed g = Raise ZeroDivisionError).
Proof.
  intros Hmax. split.
  - apply simulate_empty_day. exact Hmax.
  - intros Hn. apply (find_avg_empty_day precinct pst ntrials seed g 0); [lia|].
    unfold value_from. rewrite simulate_empty_day by exact Hmax. reflexivity.
Qed.

Lemma empty_precinct_witness :
  Precinct.simulate (R := tenths) (precinct_of no_voters_dict) (1 # 2)
    (PrecinctDict.straight_ticket_duration no_voters_dict) 5 fresh =
    Ok ([], seeded (R := tenths) 5) /\
  find_avg_wait_time (R := tenths) no_voters_dict (1 # 2) 4 5 fresh =
    Raise ZeroDivisionError.
Proof.
  destruct (empty_precinct (R := tenths) no_voters_dict (1 # 2) 4 5 fresh) as [H1 H2].
  - simpl. lia.
  - split; [exact H1 | apply H2; lia].
Defined.

(** * The number of variates a day costs *)

Section DrawCount.
Context {R : RandomSource}.

Lemma arrivals_draws (self : Precinct.t) (pst std : Q) (fuel : nat) :
  forall voters cur g res g',
    Precinct.arrivals fuel self pst std voters cur g = Ok (res, g') ->
    let before := Z.of_nat (List.length voters) in
    let recorded := Z.of_nat (List.length res) in
    let drawn := (Z.of_nat (Random.pos g') - Z.of_nat (Random.pos g))%Z in
    (before <= recorded)%Z /\
    (2 * (recorded - before) <= drawn)%Z /\
    (drawn <= 3 * (recorded - before + 1))%Z /\
    (drawn <= 3 * Z.max 0 (Precinct.max_num_voters self - before))%Z.
Proof.
  induction fuel as [|fuel IH]; intros voters cur g res g' Hrun; [discriminate|].
  rewrite arrivals_step in Hrun.
  destruct (_ <=? _)%Z eqn:Hguard.
  - apply Z.leb_le in Hguard.
    destruct (Precinct.draw_candidate self pst std g) as [[[d gap] g1]| | |] eqn:Hd;
      try discriminate.
    assert (Hpos : (Random.pos g1 = Random.pos g + 2 \/
                    Random.pos g1 = Random.pos g + 3)%nat).
    { destruct (draw_candidate_cases self pst std g d gap g1 Hd)
        as (_ & [(_ & _ & _ & Hp)|(_ & _ & _ & Hp)]); auto. }
    destruct (Qgtb _ _).
    + inversion Hrun; subst. cbv zeta. lia.
    + specialize (IH _ _ _ _ _ Hrun). cbv zeta in IH.
      rewrite length_app in IH. simpl List.length in IH. cbv zeta. lia.
  - inversion Hrun; subst. cbv zeta. lia.
Qed.

End DrawCount.

(** X11.  A day that returns [n] voters has drawn at least [2 n] and
    at most [3 (n + 1)] variates from the generator since seeding, and
    never more than three per admissible voter. *)
Theorem simulate_draw_count {R : RandomSource}
    (self : Precinct.t) (pst std : Q) (seed : Z) (g : Random.state)
    (voters : list Voter.t) (g' : Random.state) :
  Precinct.simulate self pst std seed g = Ok (voters, g') ->
  let n := Z.of_nat (List.length voters) in
  let drawn := Z.of_nat (Random.pos g') in
  (2 * n <= drawn)%Z /\
  (drawn <= 3 * (n + 1))%Z /\
  (drawn <= 3 * Z.max 0 (Precinct.max_num_voters self))%Z.
Proof.
  intros Hsim n drawn.
  destruct (simulate_Ok_inv _ _ _ _ _ _ _ Hsim) as (arrived & b & Harr & Hall).
  destruct (assign_all_total arrived _ (init_pool_ok (Precinct.num_booths self)))
    as (served & b0 & Hall' & _ & _ & _ & Hrel).
  rewrite Hall in Hall'. inversion Hall'; subst served b0.
  destruct (served_arrival_times _ _ Hrel) as [_ Hlen].
  pose proof (arrivals_draws self pst std _ _ _ _ _ _ Harr) as H.
  cbv zeta in H. unfold seeded in H. cbn [List.length Random.pos] in H.
  subst n drawn. rewrite Hlen.
  replace (Precinct.max_num_voters self - Z.of_nat 0)%Z
    with (Precinct.max_num_voters self) in H by lia.
  lia.
Qed.

Lemma simulate_draw_count_witness :
  exists voters g',
    Precinct.simulate (R := tenths) demo_precinct (1 # 2) 2 0 fresh = Ok (voters, g') /\
    (2 * Z.of_nat (List.length voters) <= Z.of_nat (Random.pos g'))%Z /\
    (Z.of_nat (Random.pos g') <= 3 * (Z.of_nat (List.length voters) + 1))%Z /\
    (Z.of_nat (Random.pos g') <= 3 * Z.max 0 (Precinct.max_num_voters demo_precinct))%Z.
Proof.
  destruct (Precinct.simulate (R := tenths) demo_precinct (1 # 2) 2 0 fresh)
    as [[voters g']| | |] eqn:E;
    [|vm_compute in E; discriminate ..].
  exists voters, g'. split; [reflexivity|].
  apply (simulate_draw_count (R := tenths) demo_precinct (1 # 2) 2 0 fresh voters g' E).
Defined.

(** * Reseeding *)

(** X12.  [simulate] starts by reseeding the module's generator, so
    its outcome, the voters and the generator state it leaves behind,
    is the same whatever was drawn before the call. *)
Theorem simulate_ignores_earlier_draws {R : RandomSource}
    (self : Precinct.t) (pst std : Q) (seed : Z) (g1 g2 : Random.state) :
  Precinct.simulate self pst std seed g1 = Precinct.simulate self pst std seed g2.
Proof. apply simulate_reseeds. Qed.

(** * Further properties of [find_percent_split_ticket] *)

Section SearchOutcomes.
Context {R : RandomSource}.

Lemma find_avg_value_of (precinct : PrecinctDict.t) (st ntrials seed : Z) (w : Q)
    (g g1 : Random.state) :
  find_avg_wait_time precinct (inject_Z st / 10) ntrials seed g = Ok (w, g1) ->
  avg_wait_at precinct st ntrials seed = Ok w.
Proof.
  intros Hrun. unfold avg_wait_at.
  rewrite <- (find_avg_wait_time_value _ _ _ _ g).
  unfold value_from. rewrite Hrun. reflexivity.
Qed.

(** What a returned result of the loop says about the points visited:
    the loop stopped at a point strictly above the target, or at the
    point numbered 10, or ran off the end, and every point before was
    at most the target and not numbered 10. *)
Lemma search_returned (steps : list (Z * Z)) (precinct : PrecinctDict.t)
    (target : Q) (ntrials seed : Z) :
  forall g r g',
    search steps precinct target ntrials seed g = Ok (r, g') ->
    exists pre,
      Forall (fun p => fst p <> 10%Z /\
                       exists wj, avg_wait_at precinct (snd p) ntrials seed = Ok wj /\
                                  wj <= target) pre /\
      ((exists sp st post w,
           steps = pre ++ (sp, st) :: post /\
           avg_wait_at precinct st ntrials seed = Ok w /\ target < w /\
           r = Some (inject_Z sp / 10, Some w)) \/
       (exists st post w,
           steps = pre ++ (10%Z, st) :: post /\
           avg_wait_at precinct st ntrials seed = Ok w /\ w <= target /\
           r = Some (1, None)) \/
       (steps = pre /\ r = None)).
Proof.
  induction steps as [|[sp st] steps IH]; intros g r g' Hrun.
  - simpl in Hrun. inversion Hrun; subst. exists []. split; [constructor|].
    right. right. auto.
  - rewrite search_step in Hrun.
    destruct (find_avg_wait_time _ _ _ _ g) as [[w g1]| | |] eqn:Havg; try discriminate.
    pose proof (find_avg_value_of _ _ _ _ _ _ _ Havg) as Hw.
    destruct (Qgtb w target) eqn:Hcmp.
    + inversion Hrun; subst. exists []. split; [constructor|].
      left. exists sp, st, steps, w. apply Qgtb_true in Hcmp. auto.
    + apply Qgtb_false in Hcmp.
      destruct (sp =? 10)%Z eqn:Hten.
      * apply Z.eqb_eq in Hten. subst sp. inversion Hrun; subst.
        exists []. split; [constructor|]. right. left. exists st, steps, w. auto.
      * apply Z.eqb_neq in Hten.
        destruct (IH _ _ _ Hrun) as (pre & Hpre & Hcases).
        exists ((sp, st) :: pre). split.
        { constructor; [|exact Hpre]. simpl. split; [exact Hten|]. eauto. }
        destruct Hcases as [(sp' & st' & post & w' & -> & H1 & H2 & H3)
                           |[(st' & post & w' & -> & H1 & H2 & H3)|(-> & H3)]].
        { left. exists sp', st', post, w'. auto. }
        { right. left. exists st', post, w'. auto. }
        { right. right. auto. }
Qed.

End SearchOutcomes.

(** X13.  Whatever [find_percent_split_ticket] returns is a pair,
    never [None], decided at one sweep point [k] between 0 and 10: the
    estimate at every point before [k] was at most the target, and
    either the estimate [w] at point [k] is strictly above the target
    and the result is [(k / 10, w)], or [k] is the last point, its
    estimate is at most the target too, and the result is [(1, None)]. *)
Theorem search_result_sound {R : RandomSource} (precinct : PrecinctDict.t)
    (target : Q) (ntrials seed : Z) (g : Random.state)
    (r : option (Q * option Q)) :
  value_from (find_percent_split_ticket precinct target ntrials seed) g = Ok r ->
  exists k,
    (k <= 10)%nat /\
    (forall j sp st, (j < k)%nat -> nth_error sweep j = Some (sp, st) ->
       exists wj, avg_wait_at precinct st ntrials seed = Ok wj /\ wj <= target) /\
    ((exists w,
         r = Some (inject_Z (Z.of_nat k) / 10, Some w) /\
         avg_wait_at precinct (10 - Z.of_nat k) ntrials seed = Ok w /\
         target < w) \/
     (k = 10%nat /\ r = Some (1, None) /\
      exists w, avg_wait_at precinct 0 ntrials seed = Ok w /\ w <= target)).
Proof.
  unfold value_from, find_percent_split_ticket. intros Hval.
  destruct (search sweep precinct target ntrials seed g) as [[r' g']| | |] eqn:Hrun;
    simpl in Hval; try discriminate.
  inversion Hval; subst r'. clear Hval.
  destruct (search_returned sweep precinct target ntrials seed g r g' Hrun)
    as (pre & Hpre & Hcases).
  assert (Hbefore : forall post j sp st,
             sweep = pre ++ post -> (j < List.length pre)%nat ->
             nth_error sweep j = Some (sp, st) ->
             exists wj, avg_wait_at precinct st ntrials seed = Ok wj /\ wj <= target).
  { intros post j sp st Hsw Hj Hnth.
    rewrite Hsw, nth_error_app1 in Hnth by exact Hj.
    apply nth_error_In in Hnth. rewrite Forall_forall in Hpre.
    destruct (Hpre _ Hnth) as (_ & H). exact H. }
  destruct Hcases as [(sp & st & post & w & Hsw & Hw & Hgt & ->)
                     |[(st & post & w & Hsw & Hw & Hle & ->)|(Hsw & ->)]].
  - assert (Hk : nth_error sweep (List.length pre) = Some (sp, st)).
    { rewrite Hsw, nth_error_app2, Nat.sub_diag by lia. reflexivity. }
    destruct (sweep_nth _ _ _ Hk) as (-> & -> & Hk10).
    exists (List.length pre). split; [exact Hk10|].
    split; [intros j sp st Hj Hnth; apply (Hbefore _ j sp st Hsw Hj Hnth)|].
    left. exists w. auto.
  - assert (Hk : nth_error sweep (List.length pre) = Some (10%Z, st)).
    { rewrite Hsw, nth_error_app2, Nat.sub_diag by lia. reflexivity. }
    destruct (sweep_nth _ _ _ Hk) as (Hten & -> & Hk10).
    assert (Hlen : List.length pre = 10%nat) by lia.
    exists 10%nat. split; [lia|]. rewrite Hlen in *.
    split; [intros j sp st Hj Hnth; apply (Hbefore _ j sp st Hsw Hj Hnth)|].
    right. split; [reflexivity|]. split; [reflexivity|].
    exists w. simpl in Hw. auto.
  - exfalso. subst pre. rewrite Forall_forall in Hpre.
    destruct (Hpre (10, 0)%Z) as (Hne & _).
    + rewrite sweep_eq. simpl. tauto.
    + apply Hne. reflexivity.
Qed.

Lemma search_result_sound_witness :
  exists r k,
    value_from (find_percent_split_ticket (R := tenths) demo_dict (2 # 5) 3 0) fresh =
      Ok r /\
    (k <= 10)%nat /\
    ((exists w,
         r = Some (inject_Z (Z.of_nat k) / 10, Some w) /\
         avg_wait_at (R := tenths) demo_dict (10 - Z.of_nat k) 3 0 = Ok w /\
         2 # 5 < w) \/
     (k = 10%nat /\ r = Some (1, None) /\
      exists w, avg_wait_at (R := tenths) demo_dict 0 3 0 = Ok w /\ w <= 2 # 5)).
Proof.
  destruct (value_from (find_percent_split_ticket (R := tenths) demo_dict (2 # 5) 3 0) fresh)
    as [r| | |] eqn:E;
    [|vm_compute in E; discriminate ..].
  destruct (search_result_sound (R := tenths) demo_dict (2 # 5) 3 0 fresh r E)
    as (k & Hk & _ & Hcases).
  exists r, k. auto.
Defined.

(** * The command [cmd] *)

(** ** The dictionary of voters *)

Lemma dict_get_set_same (d : list (string * list Voter.t)) (k : string)
    (v : list Voter.t) :
  dict_get (dict_set d k v) k = Some v.
Proof.
  induction d as [|[k' v'] d IH]; simpl.
  - now rewrite String.eqb_refl.
  - destruct (String.eqb k' k) eqn:E; simpl; rewrite E; [reflexivity | exact IH].
Qed.

Lemma dict_get_set_other (d : list (string * list Voter.t)) (k k0 : string)
    (v : list Voter.t) :
  k0 <> k -> dict_get (dict_set d k v) k0 = dict_get d k0.
Proof.
  intros Hne. induction d as [|[k' v'] d IH]; simpl.
  - destruct (String.eqb k k0) eqn:E; [|reflexivity].
    apply String.eqb_eq in E. congruence.
  - destruct (String.eqb k' k) eqn:E; simpl.
    + apply String.eqb_eq in E. subst k'.
      destruct (String.eqb k k0) eqn:E0; [|reflexivity].
      apply String.eqb_eq in E0. congruence.
    + destruct (String.eqb k' k0); [reflexivity | exact IH].
Qed.

Lemma py_index_head {A : Type} (x : A) (l : list A) : py_index (x :: l) 0 = Ok x.
Proof. reflexivity. Qed.

Section CmdFacts.
Context {R : RandomSource}.

Lemma day_of_run (p : PrecinctDict.t) (seed : Z) (vs : list Voter.t)
    (g : Random.state) :
  day_of p seed = Ok vs ->
  exists g1,
    Precinct.simulate (precinct_of p) (PrecinctDict.percent_straight_ticket p)
      (PrecinctDict.straight_ticket_duration p) seed g = Ok (vs, g1).
Proof.
  unfold day_of, value_from. rewrite (simulate_reseeds _ _ _ _ fresh g).
  destruct (Precinct.simulate _ _ _ _ g) as [[vs' g1]| | |]; simpl; try discriminate.
  intros H; inversion H; subst. eauto.
Qed.

(** The first loop: when every day returns, the dictionary keeps what
    it held under other names and, for distinct names, holds each
    precinct's own day. *)
Lemma simulate_all_run (precincts : list PrecinctDict.t) (seed : Z) :
  forall d g,
    Forall (fun p => exists vs, day_of p seed = Ok vs) precincts ->
    exists voters g',
      simulate_all precincts seed d g = Ok (voters, g') /\
      (forall k, ~ In k (map PrecinctDict.name precincts) ->
                 dict_get voters k = dict_get d k) /\
      (NoDup (map PrecinctDict.name precincts) ->
       forall p vs, In p precincts -> day_of p seed = Ok vs ->
                    dict_get voters (PrecinctDict.name p) = Some vs).
Proof.
  induction precincts as [|p rest IH]; intros d g Hdays.
  - exists d, g. simpl. unfold Random.ret. repeat split; auto. intros _ p vs [].
  - inversion Hdays as [|? ? (vs & Hvs) Hrest]; subst.
    destruct (day_of_run p seed vs g Hvs) as (g1 & Hsim).
    destruct (IH (dict_set d (PrecinctDict.name p) vs) g1 Hrest)
      as (voters & g' & Hrun & Hother & Hown).
    exists voters, g'. cbn [simulate_all]. unfold Random.bind. rewrite Hsim.
    split; [exact Hrun|]. split.
    + intros k Hk. simpl in Hk. rewrite Hother by tauto.
      apply dict_get_set_other. intros ->. apply Hk. left. reflexivity.
    + intros Hnodup q ws Hq Hws. simpl in Hnodup.
      inversion Hnodup as [|? ? Hfresh Hnodup']; subst.
      destruct Hq as [<-|Hq].
      * rewrite Hother by exact Hfresh. rewrite dict_get_set_same. congruence.
      * apply (Hown Hnodup' q ws Hq Hws).
Qed.

Lemma summarize_quiet (precincts : list PrecinctDict.t)
    (voters : list (string * list Voter.t)) :
  Forall (fun p => dict_get voters (PrecinctDict.name p) = Some []) precincts ->
  summarize precincts voters = (map no_voters_line precincts, Completed).
Proof.
  induction 1 as [|p rest Hp _ IH]; simpl; [reflexivity|].
  rewrite Hp. simpl. rewrite IH. reflexivity.
Qed.

Lemma summarize_crash (pre : list PrecinctDict.t) (p : PrecinctDict.t)
    (post : list PrecinctDict.t) (voters : list (string * list Voter.t))
    (vs : list Voter.t) :
  Forall (fun q => dict_get voters (PrecinctDict.name q) = Some []) pre ->
  dict_get voters (PrecinctDict.name p) = Some vs ->
  vs <> [] ->
  summarize (pre ++ p :: post) voters = (map no_voters_line pre, Died AttributeError).
Proof.
  intros Hpre Hp Hvs. induction Hpre as [|q pre Hq _ IH]; simpl.
  - rewrite Hp. destruct vs; [congruence | reflexivity].
  - rewrite Hq. simpl. rewrite IH. reflexivity.
Qed.

(** The sweep when no point is strictly above the target. *)
Lemma search_sweep_infeasible (precinct : PrecinctDict.t) (target : Q)
    (ntrials seed : Z) (g : Random.state) :
  (forall sp st, In (sp, st) sweep ->
     exists wj, avg_wait_at precinct st ntrials seed = Ok wj /\ wj <= target) ->
  exists g',
    find_percent_split_ticket precinct target ntrials seed g = Ok (Some (1, None), g').
Proof.
  intros Hall.
  assert (Hsplit : sweep = firstn 10 sweep ++ [(10, 0)%Z]) by reflexivity.
  destruct (search_skip (firstn 10 sweep) precinct target ntrials seed)
    with (rest := [(10, 0)%Z]) (g := g) as (g1 & Hskip).
  { intros sp st Hin. split.
    - rewrite sweep_eq in Hin. simpl in Hin.
      repeat (destruct Hin as [Hin|Hin]; [inversion Hin; lia|]). contradiction.
    - apply (Hall sp st). rewrite <- (firstn_skipn 10 sweep).
      apply in_or_app. left. exact Hin. }
  destruct (Hall 10%Z 0%Z) as (w & Hw & Hle).
  { rewrite sweep_eq. simpl. tauto. }
  destruct (find_avg_of_value precinct 0 ntrials seed w g1 Hw) as (g2 & Hrun).
  exists g2. unfold find_percent_split_ticket.
  rewrite Hsplit, Hskip, search_step, Hrun.
  apply Qgtb_false in Hle. rewrite Hle. reflexivity.
Qed.

(** The sweep when the very first point is strictly above the target. *)
Lemma search_sweep_at_once (precinct : PrecinctDict.t) (target : Q)
    (ntrials seed : Z) (g : Random.state) (w : Q) :
  avg_wait_at precinct 10 ntrials seed = Ok w ->
  target < w ->
  exists g',
    find_percent_split_ticket precinct target ntrials seed g =
      Ok (Some (inject_Z 0 / 10, Some w), g').
Proof.
  intros Hw Hgt.
  destruct (find_avg_of_value precinct 10 ntrials seed w g Hw) as (g1 & Hrun).
  exists g1. unfold find_percent_split_ticket.
  rewrite sweep_eq, search_step, Hrun.
  apply Qgtb_true in Hgt. rewrite Hgt. reflexivity.
Qed.

End CmdFacts.

(** X14.  Without a target and without [--print-voters], for
    precincts with distinct names whose days all return: [cmd] prints
    an empty line and then one "No voters voted." line per precinct
    for as long as the precincts have no voters.  If no precinct has
    voters it completes; at the first precinct that has voters it
    raises [AttributeError], having printed no summary for it. *)
Theorem summary_report {R : RandomSource}
    (print_voters_lines : list Voter.t -> list string)
    (format_2f format_float : Q -> string)
    (precincts : list PrecinctDict.t) (seed : Z) (g : Random.state) :
  NoDup (map PrecinctDict.name precincts) ->
  Forall (fun p => exists vs, day_of p seed = Ok vs) precincts ->
  (Forall (fun p => day_of p seed = Ok []) precincts ->
   cmd print_voters_lines format_2f format_float precincts seed None false g =
     (""%string :: map no_voters_line precincts, Completed)) /\
  (forall pre p post vs,
      precincts = pre ++ p :: post ->
      Forall (fun q => day_of q seed = Ok []) pre ->
      day_of p seed = Ok vs -> vs <> [] ->
      cmd print_voters_lines format_2f format_float precincts seed None false g =
        (""%string :: map no_voters_line pre, Died AttributeError)).
Proof.
  intros Hnodup Hdays.
  destruct (simulate_all_run precincts seed [] g Hdays)
    as (voters & g' & Hrun & _ & Hown).
  specialize (Hown Hnodup).
  unfold cmd. rewrite Hrun. split.
  - intros Hquiet. rewrite summarize_quiet; [reflexivity|].
    rewrite Forall_forall in *. intros p Hp. apply (Hown p [] Hp (Hquiet p Hp)).
  - intros pre p post vs Hsplit Hpre Hp Hvs. subst precincts.
    rewrite (summarize_crash pre p post voters vs); [reflexivity| | |exact Hvs].
    + rewrite Forall_forall in *. intros q Hq.
      apply (Hown q []); [apply in_or_app; left; exact Hq | apply Hpre, Hq].
    + apply (Hown p vs); [apply in_or_app; right; left; reflexivity | exact Hp].
Qed.

Lemma summary_report_witness :
  exists vs,
    day_of (R := tenths) demo_dict 0 = Ok vs /\ vs <> [] /\
    cmd (R := tenths) demo_print demo_format demo_format
      [no_voters_dict; demo_dict] 0 None false fresh =
      ([""%string; no_voters_line no_voters_dict], Died AttributeError).
Proof.
  destruct (day_of (R := tenths) demo_dict 0) as [vs| | |] eqn:E;
    [|vm_compute in E; discriminate ..].
  assert (Hvs : vs <> []).
  { intros ->. vm_compute in E. discriminate. }
  exists vs. split; [reflexivity|]. split; [exact Hvs|].
  apply (proj2 (summary_report (R := tenths) demo_print demo_format demo_format
                  [no_voters_dict; demo_dict] 0 fresh
                  ltac:(repeat constructor; simpl; intuition discriminate)
                  ltac:(constructor;
                        [exists []; reflexivity
                        |constructor; [exists vs; exact E | constructor]]))
           [no_voters_dict] demo_dict [] vs eq_refl).
  - constructor; [reflexivity | constructor].
  - exact E.
  - exact Hvs.
Defined.

(** X15.  With a target, [cmd] raises [IndexError] on an empty list of
    precincts; and when no sweep point of the first precinct is
    strictly above the target, so that the search returns
    [(1, None)], it raises [TypeError] while formatting the missing
    wait and prints nothing. *)
Theorem threshold_report_infeasible {R : RandomSource}
    (print_voters_lines : list Voter.t -> list string)
    (format_2f format_float : Q -> string)
    (precinct : PrecinctDict.t) (rest : list PrecinctDict.t)
    (seed : Z) (target : Q) (print_voters : bool) (g : Random.state) :
  cmd print_voters_lines format_2f format_float [] seed (Some target) print_voters g =
    ([], Died (Builtin IndexError)) /\
  ((forall sp st, In (sp, st) sweep ->
      exists wj, avg_wait_at precinct st 20 seed = Ok wj /\ wj <= target) ->
   cmd print_voters_lines format_2f format_float (precinct :: rest) seed
     (Some target) print_voters g = ([], Died (Builtin TypeError))).
Proof.
  split; [reflexivity|].
  intros Hall.
  destruct (search_sweep_infeasible precinct target 20 seed g Hall) as (g' & Hrun).
  unfold cmd, report_threshold. rewrite py_index_head, Hrun. reflexivity.
Qed.

Lemma threshold_report_infeasible_witness :
  cmd (R := tenths) demo_print demo_format demo_format [demo_dict] 0 (Some 10000)
    false fresh = ([], Died (Builtin TypeError)).
Proof.
  apply (proj2 (threshold_report_infeasible (R := tenths) demo_print demo_format
                  demo_format demo_dict [] 0 10000 false fresh)).
  intros sp st Hin. rewrite sweep_eq in Hin. simpl in Hin.
  repeat (destruct Hin as [Hin|Hin];
          [inversion Hin; subst; eexists;
           (split; [vm_compute; reflexivity | vm_compute; discriminate])|]).
  contradiction.
Defined.

(** X16.  With a target that the median average wait already exceeds
    when every voter is straight-ticket, the search returns the
    fraction 0 and [cmd] prints the line "Waiting times are always
    below ..." for the first precinct. *)
Theorem threshold_report_at_once {R : RandomSource}
    (print_voters_lines : list Voter.t -> list string)
    (format_2f format_float : Q -> string)
    (precinct : PrecinctDict.t) (rest : list PrecinctDict.t)
    (seed : Z) (target w : Q) (print_voters : bool) (g : Random.state) :
  avg_wait_at precinct 10 20 seed = Ok w ->
  target < w ->
  cmd print_voters_lines format_2f format_float (precinct :: rest) seed
    (Some target) print_voters g =
    ([("Waiting times are always below " ++ format_2f target ++
       " in precinct '" ++ PrecinctDict.name precinct ++ "'")%string],
     Completed).
Proof.
  intros Hw Hgt.
  destruct (search_sweep_at_once precinct target 20 seed g w Hw Hgt) as (g' & Hrun).
  unfold cmd, report_threshold. rewrite py_index_head, Hrun. reflexivity.
Qed.

Lemma threshold_report_at_once_witness :
  cmd (R := tenths) demo_print demo_format demo_format [demo_dict] 0 (Some (1 # 10))
    false fresh =
    (["Waiting times are always below x in precinct 'demo'"%string], Completed).
Proof.
  destruct (avg_wait_at (R := tenths) demo_dict 10 20 0) as [w| | |] eqn:E;
    [|vm_compute in E; discriminate ..].
  apply (threshold_report_at_once (R := tenths) demo_print demo_format demo_format
           demo_dict [] 0 (1 # 10) w false fresh E).
  vm_compute in E. inversion E; subst. vm_compute. reflexivity.
Defined.
